(** * xplt: knl profiles along a beamline and phase-space plots

    A shallow embedding of [xplt/line.py] ([iter_elements], [KnlPlot]) and
    of [xplot/phasespace.py] ([PhaseSpacePlot]).

    Python exceptions are explicit: every operation that can raise returns
    a [result].  In [line.py], longitudinal positions and knl values are
    Python floats; they are embedded as rationals, on which the
    comparisons of the source are exact and its arithmetic is taken
    without rounding.  In [phasespace.py], the floats are an abstract type
    and the calls of numpy are parameters: no law of arithmetic is used.
    The plotting library's figures and axes are not part of the model;
    what the code stores in its artists is. *)

From Stdlib Require Import ZArith QArith Qround List String Ascii Lia Bool Lqa.
From stdpp Require Import base list strings gmap.

Local Open Scope Q_scope.

(** ** Python values and exceptions *)

Module Py.

Inductive exn : Type :=
| ValueError
| IndexError
| AttributeError
| KeyError
| TypeError
| ZeroDivisionError.

Inductive result (A : Type) : Type :=
| Ok (a : A)
| Raise (e : exn).
Arguments Ok {A} a.
Arguments Raise {A} e.

#[global] Instance result_ret : MRet result := fun A a => Ok a.
#[global] Instance result_bind : MBind result := fun A B f c =>
  match c with
  | Ok a => f a
  | Raise e => Raise e
  end.

Definition is_ok {A} (c : result A) : Prop := exists a, c = Ok a.

(** A [for] loop whose body may raise: the accumulator is threaded
    through, the first exception ends the loop. *)
Fixpoint for_each {A S : Type} (body : S -> A -> result S)
    (xs : list A) (s : S) : result S :=
  match xs with
  | [] => Ok s
  | x :: xs' => s' ← body s x; for_each body xs' s'
  end.

(** [enumerate(xs)] *)
Definition enumerate {A} (xs : list A) : list (nat * A) :=
  zip (seq 0 (length xs)) xs.

(** [range(n)] for an integer [n] *)
Definition range (n : Z) : list Z :=
  map Z.of_nat (seq 0 (Z.to_nat n)).

(** [l[n]] for an integer [n]: negative indices count from the end. *)
Definition index {A} (l : list A) (n : Z) : result A :=
  let len := Z.of_nat (length l) in
  let k := if (0 <=? n)%Z then n else (len + n)%Z in
  if ((0 <=? k) && (k <? len))%Z
  then match l !! Z.to_nat k with
       | Some a => Ok a
       | None => Raise IndexError
       end
  else Raise IndexError.

Definition Qltb (a b : Q) : bool := negb (Qle_bool b a).

(** [a % b] on floats: the result has the sign of [b]. *)
Definition mod_ (a b : Q) : result Q :=
  if Qeq_bool b 0 then Raise ZeroDivisionError
  else Ok (a - b * inject_Z (Qfloor (a / b))).

(** [max(l)] of a list of integers; the empty list raises. *)
Definition max_ (l : list Z) : result Z :=
  match l with
  | [] => Raise ValueError
  | x :: l' => Ok (fold_left Z.max l' x)
  end.

(** [str.split(sep)] for a one-character separator: every occurrence
    splits, empty pieces are kept. *)
Fixpoint split (sep : ascii) (s : string) : list string :=
  match s with
  | EmptyString => [EmptyString]
  | String c s' =>
      if Ascii.eqb c sep then EmptyString :: split sep s'
      else match split sep s' with
           | [] => [String c EmptyString]
           | w :: ws => String c w :: ws
           end
  end.

(** [sep.join(ws)] *)
Fixpoint join (sep : ascii) (ws : list string) : string :=
  match ws with
  | [] => EmptyString
  | w :: ws' =>
      match ws' with
      | [] => w
      | _ :: _ => (w ++ String sep (join sep ws'))%string
      end
  end.

End Py.

Import Py.

(** ** xplt/line.py *)

Module Line.

(** An element of a line, with the attributes the code asks for. *)
Record Element : Type := {
  el_knl : option (list Q);
  el_order : option Z;
  el_length : option Q
}.

(** The line object: what [element_names], [elements],
    [get_s_elements("upstream")], [get_s_elements("downstream")] and
    [get_length()] return. *)
Record Line : Type := {
  element_names : list string;
  elements : list Element;
  s_upstream : list Q;
  s_downstream : list Q;
  get_length : Q
}.

Definition Item : Type := string * Element * Q * Q.

(** The body of the loop of [iter_elements]. *)
Definition iter_element (it : Item) : Item :=
  let '(name, el, s0, s1) := it in
  if Qeq_bool s0 s1 then
    match el_length el with
    | Some len => (name, el, (s0 + s1 - len) / 2, (s0 + s1 + len) / 2)
    | None => (name, el, s0, s1)
    end
  else (name, el, s0, s1).

Definition zip4 (l : Line) : list Item :=
  zip_with (fun '(name, el) '(s0, s1) => (name, el, s0, s1))
    (zip (element_names l) (elements l))
    (zip (s_upstream l) (s_downstream l)).

Definition iter_elements (l : Line) : list Item :=
  map iter_element (zip4 l).

(** The array [KNL]: one row per plotted order, one column per grid
    point. *)
Abbreviation Matrix := (list (list Q)).

Record Artist : Type := {
  art_x : list Q;
  art_y : list Q
}.

(** The plot object.  [factor_s] and [factor_k n] stand for
    [self.factor_for("s")] and [self.factor_for(f"k{n}l")] of the base
    class. *)
Record KnlPlot : Type := {
  knl : list Z;
  S : list Q;
  filled : bool;
  artists : list Artist;
  factor_s : Q;
  factor_k : Z -> Q
}.

(** [np.linspace(0, stop, num)] *)
Definition linspace (stop : Q) (num : nat) : list Q :=
  map (fun j => 0 + inject_Z (Z.of_nat j) * (stop / inject_Z (Z.of_nat num - 1)))
      (seq 0 num).

(** The mask over the grid chosen for an interval. *)
Definition mask (grid : list Q) (Smax s0 s1 : Q) : result (list bool) :=
  if Qle_bool 0 s0 && Qle_bool s0 Smax then
    Ok (map (fun s => Qle_bool s0 s && Qltb s s1) grid)
  else
    (* handle wrap around *)
    a ← mod_ s0 Smax;
    b ← mod_ s1 Smax;
    Ok (map (fun s => Qle_bool a s || Qltb s b) grid).

(** [row[mask] += v] *)
Definition add_masked (v : Q) (m : list bool) (row : list Q) : list Q :=
  zip_with (fun (b : bool) x => if b then x + v else x) m row.

(** The body of the loop over [enumerate(self.knl)]. *)
Definition update_order (grid : list Q) (Smax : Q) (el : Element)
    (kv : list Q) (s0 s1 : Q) (KNL : Matrix) (ix : nat * Z) : result Matrix :=
  let '(i, n) := ix in
  order ← match el_order el with
          | Some o => Ok o
          | None => Raise AttributeError
          end;
  if (n <=? order)%Z then
    m ← mask grid Smax s0 s1;
    v ← index kv n;
    Ok (alter (add_masked v m) i KNL)
  else Ok KNL.

(** The body of the loop over [iter_elements(line)]. *)
Definition update_element (grid : list Q) (orders : list Z) (Smax : Q)
    (KNL : Matrix) (it : Item) : result Matrix :=
  let '(name, el, s0, s1) := it in
  match el_knl el with
  | Some kv => for_each (update_order grid Smax el kv s0 s1) (enumerate orders) KNL
  | None => Ok KNL
  end.

(** The first half of [KnlPlot.update]: knl as a function of s. *)
Definition compute_KNL (orders : list Z) (grid : list Q) (line : Line)
    : result Matrix :=
  let KNL := replicate (length orders) (replicate (length grid) 0) in
  let Smax := get_length line in
  for_each (update_element grid orders Smax) (iter_elements line) KNL.

(** The second half: the data of the artists. *)
Definition set_artist (p : KnlPlot) (n : Z) (art : Artist) (row : list Q)
    : Artist :=
  let f := factor_k p n in
  if filled p then
    {| art_x := art_x art; art_y := map (Qmult f) row |}
  else
    {| art_x := map (Qmult (factor_s p)) (S p); art_y := map (Qmult f) row |}.

Definition plot_artists (p : KnlPlot) (KNL : Matrix) : list Artist :=
  zip_with (fun n '(art, row) => set_artist p n art row)
    (knl p) (zip (artists p) KNL).

(** [KnlPlot.update]: the new plot object, the list of changed artists
    and the accumulated KNL array. *)
Definition update (p : KnlPlot) (line : Line)
    : result (KnlPlot * list Artist * Matrix) :=
  KNL ← compute_KNL (knl p) (S p) line;
  let changed := plot_artists p KNL in
  (* artists beyond the zip are left as they are *)
  let arts := changed ++ drop (length changed) (artists p) in
  Ok ({| knl := knl p; S := S p; filled := filled p; artists := arts;
         factor_s := factor_s p; factor_k := factor_k p |},
      changed, KNL).

Inductive KnlArg : Type :=
| KnlNone
| KnlInt (k : Z)
| KnlList (ns : list Z).

(** [[e.order for e in line.elements if hasattr(e, "order")]] *)
Definition orders_of (l : Line) : list Z :=
  omap el_order (elements l).

(** [KnlPlot.__init__] *)
Definition init (line : option Line) (knl_arg : KnlArg) (is_filled : bool)
    (resolution : nat) (line_length : option Q)
    (fs : Q) (fk : Z -> Q) : result KnlPlot :=
  orders ← match knl_arg with
           | KnlNone =>
               match line with
               | None => Raise ValueError
               | Some l => m ← max_ (orders_of l); Ok (range (m + 1))
               end
           | KnlInt k => Ok (range (k + 1))
           | KnlList ns => Ok ns
           end;
  stop ← match line, line_length with
         | None, None => Raise ValueError
         | _, Some len =>
             if negb (Qeq_bool len 0) then Ok len
             else match line with
                  | Some l => Ok (get_length l)
                  | None => Raise AttributeError
                  end
         | Some l, None => Ok (get_length l)
         end;
  let grid := linspace stop resolution in
  let arts :=
    map (fun _ : Z =>
           if is_filled then
             {| art_x := grid; art_y := replicate (length grid) 0 |}
           else {| art_x := []; art_y := [] |}) orders in
  let p := {| knl := orders; S := grid; filled := is_filled;
              artists := arts; factor_s := fs; factor_k := fk |} in
  match line with
  | Some l => '(p', _, _) ← update p l; Ok p'
  | None => Ok p
  end.

(** Every row of the array has one entry per grid point. *)
Definition rows_ok (grid : list Q) (KNL : Matrix) : Prop :=
  Forall (fun row => length row = length grid) KNL.

(** What [update_order] needs of an element not to raise. *)
Definition wf_element (orders : list Z) (el : Element) : Prop :=
  forall kv, el_knl el = Some kv ->
    exists o, el_order el = Some o /\
      forall n, n ∈ orders -> (n <= o)%Z -> is_ok (index kv n).

(** What the accumulation needs of a line not to raise. *)
Definition wf_line (orders : list Z) (l : Line) : Prop :=
  ~ get_length l == 0 /\ Forall (wf_element orders) (elements l).

End Line.

(** ** xplot/phasespace.py *)

Module PhaseSpace.

(** What the code asks of numpy and of pyplot.  [R] is the type of
    floats; no law of arithmetic is assumed of it.  [plt_subplots nrow ncol]
    is the number of axes of the figure that [plt.subplots] creates, or the
    exception it raises. *)
Class Backend (R : Type) : Type := {
  of_Z : Z -> R;
  half : R;
  add : R -> R -> R;
  sub : R -> R -> R;
  mul : R -> R -> R;
  div : R -> R -> R;
  pow : R -> R -> R;
  np_mean : list R -> R;
  np_cov : list R -> list R -> (R * R) * (R * R);
  np_linalg_eig : (R * R) * (R * R) -> (R * R) * ((R * R) * (R * R));
  np_sqrt : R -> R;
  np_arctan2 : R -> R -> R;
  np_degrees : R -> R;
  np_percentile : list R -> R -> R;
  plt_subplots : Z -> Z -> result nat
}.

(** *** Arguments of the constructor *)

Inductive KindEntry : Type :=
| KStr (s : string)
| KSeq (cs : list string).

Inductive KindArg : Type :=
| KindStr (s : string)
| KindSeq (es : list KindEntry).

Inductive FlagArg : Type :=
| FlagBool (b : bool)
| FlagIter (bs : list bool).

Inductive PctArg (R : Type) : Type :=
| PctNone
| PctFlat (ps : list R)
| PctNested (pss : list (list R)).
Arguments PctNone {R}.
Arguments PctFlat {R} ps.
Arguments PctNested {R} pss.

(** [ax]: nothing, one axes, or a sequence that flattens to [k] axes. *)
Inductive AxArg : Type :=
| AxNone
| AxSingle
| AxSeq (k : nat).

(** *** Parsing of [kind] *)

Definition abbreviations (s : string) : option (list string) :=
  if String.eqb s "x" then Some ["x"; "px"]
  else if String.eqb s "y" then Some ["y"; "py"]
  else if String.eqb s "z" then Some ["zeta"; "delta"]
  else if String.eqb s "X" then Some ["X"; "Px"]
  else if String.eqb s "Y" then Some ["Y"; "Py"]
  else None.

(** The body of the loop [for i in range(len(kind))]: [kind[i]] is
    replaced in place. *)
Definition parse_step (kind : list KindEntry) (i : nat)
    : result (list KindEntry) :=
  match kind !! i with
  | None => Raise IndexError
  | Some (KStr s) =>
      let k := split "-" s in
      (* replace abbreviations elements by corresponding tuple *)
      let k := match k with
               | [t] => match abbreviations t with
                        | Some tuple => tuple
                        | None => k
                        end
               | _ => k
               end in
      if negb (length k =? 2)%nat then Raise ValueError
      else Ok (<[i := KSeq k]> kind)
  | Some (KSeq _) => Ok kind
  end.

Definition parse_kind (kind : KindArg) : result (list KindEntry) :=
  let kind := match kind with
              | KindStr s => map KStr (split "," s)
              | KindSeq es => es
              end in
  for_each parse_step (seq 0 (length kind)) kind.

(** What iterating over an entry of [self.kind] yields: the items of a
    sequence, the characters of a string. *)
Definition coords (e : KindEntry) : list string :=
  match e with
  | KSeq cs => cs
  | KStr s => map (fun c => String c EmptyString) (list_ascii_of_string s)
  end.

(** [(a, b) = k] *)
Definition unpack2 (k : list string) : result (string * string) :=
  match k with
  | [a; b] => Ok (a, b)
  | _ => Raise ValueError
  end.

(** [l[i]] for an index of [enumerate] *)
Definition getitem {A} (l : list A) (i : nat) : result A :=
  match l !! i with
  | Some a => Ok a
  | None => Raise IndexError
  end.

(** *** The parser in the words of its description

    A string is split at commas into subplot strings; each subplot
    string is split at dashes, a single token that is an abbreviation is
    replaced by its pair, and an entry that is not a pair is an error.
    Entries given as sequences are taken as they are. *)

Definition entries (kind : KindArg) : list KindEntry :=
  match kind with
  | KindStr s => map KStr (split "," s)
  | KindSeq es => es
  end.

Definition expand (tokens : list string) : list string :=
  match tokens with
  | [t] => match abbreviations t with
           | Some tuple => tuple
           | None => tokens
           end
  | _ => tokens
  end.

Definition parse_entry_spec (e : KindEntry) : result KindEntry :=
  match e with
  | KStr s =>
      let k := expand (split "-" s) in
      if (length k =? 2)%nat then Ok (KSeq k) else Raise ValueError
  | KSeq cs => Ok (KSeq cs)
  end.

Fixpoint parse_entries_spec (es : list KindEntry) : result (list KindEntry) :=
  match es with
  | [] => Ok []
  | e :: es' =>
      e' ← parse_entry_spec e;
      rest ← parse_entries_spec es';
      Ok (e' :: rest)
  end.

Definition parse_kind_spec (kind : KindArg) : result (list KindEntry) :=
  parse_entries_spec (entries kind).

(** *** The plot object *)

Section Plot.

Context {R : Type} `{Backend R}.

Record Ellipse : Type := {
  center : R * R;
  width : R;
  height : R;
  angle : R
}.

Record Scatter : Type := {
  visible : bool;
  offsets : list (R * R)
}.

Record Hexbin : Type := {
  hex_x : list R;
  hex_y : list R;
  hex_edgecolors_none : bool
}.

Record MeanLine : Type := {
  mean_data : option (R * R)
}.

(** What [__init__] stores and [update] only reads.  [factor_for] is the
    method of the base class. *)
Record Config : Type := {
  kind : list (list string);
  plot : string;
  percentiles : list (option (list R));
  n_axes : nat;
  factor_for : string -> R
}.

Record Artists : Type := {
  artists_scatter : list (option Scatter);
  artists_hexbin : list (list Hexbin);
  artists_mean : list (option MeanLine);
  artists_std : list (option Ellipse);
  artists_percentiles : list (list Ellipse)
}.

Record PhaseSpacePlot : Type := {
  config : Config;
  arts : Artists
}.

(** *** Sanitizing and checking the arguments *)

Definition sanitize_flag (n : nat) (f : FlagArg) : list bool :=
  match f with
  | FlagBool b => replicate n b
  | FlagIter bs => bs
  end.

(** [percentiles is None or not hasattr(percentiles[0], "__iter__")] *)
Definition sanitize_percentiles (n : nat) (p : PctArg R)
    : result (list (option (list R))) :=
  match p with
  | PctNone => Ok (replicate n None)
  | PctFlat [] => Raise IndexError
  | PctFlat ps => Ok (replicate n (Some ps))
  | PctNested [] => Raise IndexError
  | PctNested pss => Ok (map Some pss)
  end.

(** [if grid] *)
Definition truthy {A} (l : option (list A)) : bool :=
  match l with
  | Some (_ :: _) => true
  | _ => false
  end.

Definition grid_bad (n : nat) (grid : option (list Z)) : bool :=
  match grid with
  | Some (g :: gs) =>
      match g :: gs with
      | [g0; g1] => (g0 * g1 <? Z.of_nat n)%Z
      | _ => true
      end
  | _ => false
  end.

Definition plot_ok (p : string) : bool :=
  String.eqb p "auto" || String.eqb p "scatter" || String.eqb p "hist2d".

Definition check_args (n : nat) (mean std : list bool)
    (pct : list (option (list R))) (grid : option (list Z)) (p : string)
    : result unit :=
  if negb (length mean =? n)%nat then Raise ValueError
  else if negb (length std =? n)%nat then Raise ValueError
  else if negb (length pct =? n)%nat then Raise ValueError
  else if grid_bad n grid then Raise ValueError
  else if negb (plot_ok p) then Raise ValueError
  else Ok tt.

(** [while n % nrow != 0: nrow -= 1] *)
Fixpoint find_nrow (n nrow : nat) : result nat :=
  match nrow with
  | O => Raise ZeroDivisionError
  | Datatypes.S r => if (n mod nrow =? 0)%nat then Ok nrow else find_nrow n r
  end.

(** The axes: the number of entries of [self.axflat]. *)
Definition create_axes (n : nat) (ax : AxArg) (grid : option (list Z))
    : result nat :=
  match ax with
  | AxNone =>
      '(ncol, nrow) ←
        match grid with
        | Some (g :: gs) =>
            match g :: gs with
            | [ncol; nrow] => Ok (ncol, nrow)
            | _ => Raise ValueError
            end
        | _ =>
            nrow ← find_nrow n (Nat.sqrt n);
            Ok (Z.of_nat (n / nrow), Z.of_nat nrow)
        end;
      plt_subplots nrow ncol
  | AxSingle => Ok 1%nat
  | AxSeq k => Ok k
  end.

Definition new_ellipse : Ellipse :=
  {| center := (of_Z 0, of_Z 0); width := of_Z 0; height := of_Z 0;
     angle := of_Z 0 |}.

(** The body of the loop that creates the artists of subplot [i]. *)
Definition create_subplot (mean std : list bool)
    (pct : list (option (list R))) (a : Artists) (ik : nat * list string)
    : result Artists :=
  let '(i, k) := ik in
  _ ← unpack2 k;
  _ ← getitem (artists_scatter a) i;
  let scatter := <[i := Some {| visible := true; offsets := [] |}]> (artists_scatter a) in
  let hexbin := artists_hexbin a ++ [[]] in
  m ← getitem mean i;
  let means := if (m : bool) then <[i := Some {| mean_data := None |}]> (artists_mean a)
               else artists_mean a in
  s ← getitem std i;
  let stds := if (s : bool) then <[i := Some new_ellipse]> (artists_std a)
              else artists_std a in
  p ← getitem pct i;
  let pcts := match (p : option (list R)) with
              | Some (q :: qs) =>
                  <[i := map (fun _ => new_ellipse) (q :: qs)]> (artists_percentiles a)
              | _ => artists_percentiles a
              end in
  Ok {| artists_scatter := scatter; artists_hexbin := hexbin;
        artists_mean := means; artists_std := stds;
        artists_percentiles := pcts |}.

Record Args : Type := {
  arg_kind : KindArg;
  arg_plot : string;
  arg_ax : AxArg;
  arg_mean : FlagArg;
  arg_std : FlagArg;
  arg_percentiles : PctArg R;
  arg_grid : option (list Z);
  arg_factor_for : string -> R
}.

(** [PhaseSpacePlot.__init__], up to the point where the data is set. *)
Definition init_plot (args : Args) : result PhaseSpacePlot :=
  parsed ← parse_kind (arg_kind args);
  let kind := map coords parsed in
  let n := length kind in
  (* sanitize parameters *)
  let mean := sanitize_flag n (arg_mean args) in
  let std := sanitize_flag n (arg_std args) in
  pct ← sanitize_percentiles n (arg_percentiles args);
  _ ← check_args n mean std pct (arg_grid args) (arg_plot args);
  (* Create plot axes *)
  naxes ← create_axes n (arg_ax args) (arg_grid args);
  _ ← (if (naxes =? 0)%nat then Raise IndexError else Ok tt);
  _ ← (if (naxes <? n)%nat then Raise ValueError else Ok tt);
  (* Create distribution plots *)
  let a0 := {| artists_scatter := replicate n None;
               artists_hexbin := replicate n [];
               artists_mean := replicate n None;
               artists_std := replicate n None;
               artists_percentiles := replicate n [] |} in
  a ← for_each (create_subplot mean std pct) (enumerate (take naxes kind)) a0;
  Ok {| config := {| kind := kind; plot := arg_plot args; percentiles := pct;
                     n_axes := naxes; factor_for := arg_factor_for args |};
        arts := a |}.

(** *** [update] *)

(** [_masked]: the property of the particles, restricted to the index
    mask. *)
Definition masked (particles : gmap string (list R)) (property : string)
    (mask : option (list Z)) : result (list R) :=
  p ← match particles !! property with
      | Some p => Ok p
      | None => Raise KeyError
      end;
  match mask with
  | Some ix => for_each (fun acc k => v ← index p k; Ok (acc ++ [v])) ix []
  | None => Ok p
  end.

Record Stats : Type := {
  XY0 : R * R;
  UV : list R * list R;
  evals : R * R;
  evecs : (R * R) * (R * R)
}.

(** The statistics of one coordinate pair. *)
Definition statistics (x y : list R) : Stats :=
  let XY0 := (np_mean x, np_mean y) in
  (* centered coordinates *)
  let UV := (map (fun v => sub v (fst XY0)) x, map (fun v => sub v (snd XY0)) y) in
  (* eigenvalues and -vectors *)
  let '(evals, evecs) := np_linalg_eig (np_cov (fst UV) (snd UV)) in
  {| XY0 := XY0; UV := UV; evals := evals; evecs := evecs |}.

(** [np.degrees(np.arctan2( *evecs[1]))] *)
Definition ellipse_angle (st : Stats) : R :=
  np_degrees (np_arctan2 (fst (snd (evecs st))) (snd (snd (evecs st)))).

Definition std_ellipse (st : Stats) : Ellipse :=
  {| center := XY0 st;
     width := mul (of_Z 2) (np_sqrt (fst (evals st)));
     height := mul (of_Z 2) (np_sqrt (snd (evals st)));
     angle := ellipse_angle st |}.

(** [np.sum(NN**2, axis=0)] for
    [NN = np.dot(evecs.T, UV) / np.sqrt(evals)[:, np.newaxis]] *)
Definition normalized_radii2 (st : Stats) : list R :=
  let '((e00, e01), (e10, e11)) := evecs st in
  let NN0 := zip_with (fun u v => div (add (mul e00 u) (mul e10 v))
                                      (np_sqrt (fst (evals st))))
               (fst (UV st)) (snd (UV st)) in
  let NN1 := zip_with (fun u v => div (add (mul e01 u) (mul e11 v))
                                      (np_sqrt (snd (evals st))))
               (fst (UV st)) (snd (UV st)) in
  zip_with (fun a b => add (mul a a) (mul b b)) NN0 NN1.

Definition percentile_ellipse (st : Stats) (p : R) : Ellipse :=
  (* percentile in normalized distribution *)
  let e := pow (np_percentile (normalized_radii2 st) p) half in
  {| center := XY0 st;
     width := mul (mul (of_Z 2) e) (np_sqrt (fst (evals st)));
     height := mul (mul (of_Z 2) e) (np_sqrt (snd (evals st)));
     angle := ellipse_angle st |}.

(** The type of plot of one call for [n] selected particles. *)
Definition plot_type (cfg : Config) (n : nat) : string :=
  if String.eqb (plot cfg) "auto" then
    if (n <=? 1000)%nat then "scatter" else "hist2d"
  else plot cfg.

(** The body of the loop over the requested percentiles. *)
Definition update_percentile (st : Stats) (es : list Ellipse)
    (jp : nat * R) : result (list Ellipse) :=
  let '(j, p) := jp in
  _ ← getitem es j;
  Ok (<[j := percentile_ellipse st p]> es).

(** The body of the loop of [update] for subplot [i]. *)
Definition update_subplot (cfg : Config) (particles : gmap string (list R))
    (mask : option (list Z)) (a : Artists) (ik : nat * list string)
    : result Artists :=
  let '(i, k) := ik in
  '(ca, cb) ← unpack2 k;
  (* coordinates *)
  xa ← masked particles ca mask;
  yb ← masked particles cb mask;
  let x := map (mul (factor_for cfg ca)) xa in
  let y := map (mul (factor_for cfg cb)) yb in
  (* statistics *)
  _ ← (if (length x =? length y)%nat then Ok tt else Raise ValueError);
  let st := statistics x y in
  (* 2D phase space distribution *)
  let plot := plot_type cfg (length x) in
  (* scatter plot *)
  sc ← getitem (artists_scatter a) i;
  sc ← match (sc : option Scatter) with
       | Some sc => Ok sc
       | None => Raise AttributeError
       end;
  let sc := {| visible := String.eqb plot "scatter";
               offsets := if String.eqb plot "scatter" then zip x y
                          else offsets sc |} in
  (* hexbin plot *)
  _ ← getitem (artists_hexbin a) i;
  let hx := if String.eqb plot "hist2d" then
              [ {| hex_x := x; hex_y := y; hex_edgecolors_none := false |};
                {| hex_x := x; hex_y := y; hex_edgecolors_none := true |} ]
            else [] in
  (* 2D mean indicator *)
  m ← getitem (artists_mean a) i;
  let means := match (m : option MeanLine) with
               | Some _ => <[i := Some {| mean_data := Some (XY0 st) |}]> (artists_mean a)
               | None => artists_mean a
               end in
  (* 2D std indicator *)
  s ← getitem (artists_std a) i;
  let stds := match (s : option Ellipse) with
              | Some _ => <[i := Some (std_ellipse st)]> (artists_std a)
              | None => artists_std a
              end in
  (* 2D percentile indicator *)
  es ← getitem (artists_percentiles a) i;
  es' ← match (es : list Ellipse) with
        | [] => Ok es
        | _ :: _ =>
            ps ← getitem (percentiles cfg) i;
            match (ps : option (list R)) with
            | Some ps => for_each (update_percentile st) (enumerate ps) es
            | None => Raise TypeError
            end
        end;
  Ok {| artists_scatter := <[i := Some sc]> (artists_scatter a);
        artists_hexbin := <[i := hx]> (artists_hexbin a);
        artists_mean := means;
        artists_std := stds;
        artists_percentiles := <[i := es']> (artists_percentiles a) |}.

(** [PhaseSpacePlot.update] *)
Definition update (p : PhaseSpacePlot) (particles : gmap string (list R))
    (mask : option (list Z)) : result PhaseSpacePlot :=
  a ← for_each (update_subplot (config p) particles mask)
        (enumerate (take (n_axes (config p)) (kind (config p)))) (arts p);
  Ok {| config := config p; arts := a |}.

(** [PhaseSpacePlot.__init__] *)
Definition init (args : Args) (particles : option (gmap string (list R)))
    (mask : option (list Z)) : result PhaseSpacePlot :=
  p ← init_plot args;
  match particles with
  | Some ps => update p ps mask
  | None => Ok p
  end.

(** *** Well-formed plots and inputs *)

(** The artists of subplot [i]. *)
Definition view (a : Artists) (i : nat)
    : option (option Scatter) * option (list Hexbin) *
      option (option MeanLine) * option (option Ellipse) *
      option (list Ellipse) :=
  (artists_scatter a !! i, artists_hexbin a !! i, artists_mean a !! i,
   artists_std a !! i, artists_percentiles a !! i).

(** The number of subplots that [update] visits:
    [zip(self.kind, self.axflat)]. *)
Definition n_subplots (cfg : Config) : nat :=
  length (take (n_axes cfg) (kind cfg)).

(** Subplot [i] has its coordinate pair and its artists, and one ellipse
    for each requested percentile. *)
Definition wf_at (cfg : Config) (a : Artists) (i : nat) : Prop :=
  exists k sc hx m s es,
    kind cfg !! i = Some k /\ length k = 2%nat /\
    view a i = (Some (Some sc), Some hx, Some m, Some s, Some es) /\
    (es <> [] -> exists ps, percentiles cfg !! i = Some (Some ps) /\
                            (length ps <= length es)%nat).

Definition wf_plot (p : PhaseSpacePlot) : Prop :=
  forall i, (i < n_subplots (config p))%nat -> wf_at (config p) (arts p) i.

(** The particles have both coordinates of every subplot, the mask
    selects existing particles, and the two selections are as long. *)
Definition coords_ok (particles : gmap string (list R))
    (mask : option (list Z)) (k : list string) : Prop :=
  exists ca cb xa yb, k = [ca; cb] /\
    masked particles ca mask = Ok xa /\
    masked particles cb mask = Ok yb /\
    length xa = length yb.

Definition wf_input (cfg : Config) (particles : gmap string (list R))
    (mask : option (list Z)) : Prop :=
  forall i k, (i < n_subplots cfg)%nat -> kind cfg !! i = Some k ->
    coords_ok particles mask k.

(** The unit-scaled coordinates of a pair. *)
Definition scaled (cfg : Config) (c : string) (xs : list R) : list R :=
  map (mul (factor_for cfg c)) xs.

(** What one pass of the loop of [update] makes of the artists [v] of
    subplot [i]. *)
Definition subplot_post (cfg : Config) (particles : gmap string (list R))
    (mask : option (list Z)) (i : nat) (k : list string)
    (v v' : option (option Scatter) * option (list Hexbin) *
            option (option MeanLine) * option (option Ellipse) *
            option (list Ellipse)) : Prop :=
  exists ca cb xa yb sc hx m s es es',
    k = [ca; cb] /\
    masked particles ca mask = Ok xa /\
    masked particles cb mask = Ok yb /\
    length xa = length yb /\
    v = (Some (Some sc), Some hx, Some m, Some s, Some es) /\
    let x := scaled cfg ca xa in
    let y := scaled cfg cb yb in
    let st := statistics x y in
    let pt := plot_type cfg (length x) in
    v' = (Some (Some {| visible := String.eqb pt "scatter";
                        offsets := if String.eqb pt "scatter" then zip x y
                                   else offsets sc |}),
          Some (if String.eqb pt "hist2d" then
                  [ {| hex_x := x; hex_y := y; hex_edgecolors_none := false |};
                    {| hex_x := x; hex_y := y; hex_edgecolors_none := true |} ]
                else []),
          Some (match m with
                | Some _ => Some {| mean_data := Some (XY0 st) |}
                | None => None
                end),
          Some (match s with
                | Some _ => Some (std_ellipse st)
                | None => None
                end),
          Some es') /\
    match es with
    | [] => es' = []
    | _ :: _ => exists ps, percentiles cfg !! i = Some (Some ps) /\
                  for_each (update_percentile st) (enumerate ps) es = Ok es'
    end.

(** *** The argument checks, as conditions on the arguments *)

(** The coordinates that an entry of [kind] stands for. *)
Definition entry_coords (e : KindEntry) : list string :=
  match e with
  | KStr s => expand (split "-" s)
  | KSeq cs => cs
  end.

Definition kind_wrong (kind : KindArg) : Prop :=
  exists e, e ∈ entries kind /\ length (entry_coords e) <> 2%nat.

Definition flag_wrong (n : nat) (f : FlagArg) : Prop :=
  match f with
  | FlagBool _ => False
  | FlagIter bs => length bs <> n
  end.

Definition percentiles_wrong (n : nat) (p : PctArg R) : Prop :=
  match p with
  | PctNested pss => length pss <> n
  | _ => False
  end.

(** A grid that is not empty and is not a pair with room for [n]
    subplots. *)
Definition grid_wrong (n : nat) (grid : option (list Z)) : Prop :=
  exists gs, grid = Some gs /\ gs <> [] /\
    ~ exists g0 g1, gs = [g0; g1] /\ (Z.of_nat n <= g0 * g1)%Z.

Definition plot_wrong (p : string) : Prop :=
  p <> "auto"%string /\ p <> "scatter"%string /\ p <> "hist2d"%string.

Definition axes_few (n : nat) (ax : AxArg) : Prop :=
  match ax with
  | AxNone => False
  | AxSingle => (1 < n)%nat
  | AxSeq k => (k < n)%nat
  end.

Definition percentiles_empty (p : PctArg R) : Prop :=
  p = PctFlat [] \/ p = PctNested [].

(** The figure that the constructor asks for is created: a positive
    layout gives that many axes, and a grid has positive entries. *)
Definition figure_ok (args : Args) : Prop :=
  arg_ax args = AxNone ->
  (forall r c, (0 < r)%Z -> (0 < c)%Z ->
     plt_subplots r c = Ok (Z.to_nat (r * c))) /\
  (forall g0 g1, arg_grid args = Some [g0; g1] -> (0 < g0)%Z /\ (0 < g1)%Z).

(** The lists of artists keep the length they are created with. *)
Definition lens (n : nat) (a : Artists) : Prop :=
  length (artists_scatter a) = n /\ (n <= length (artists_hexbin a))%nat /\
  length (artists_mean a) = n /\ length (artists_std a) = n /\
  length (artists_percentiles a) = n.

(** The artists of subplot [i] that the constructor assigns by index. *)
Definition created (a : Artists) (i : nat)
    : option (option Scatter) * option (option MeanLine) *
      option (option Ellipse) * option (list Ellipse) :=
  (artists_scatter a !! i, artists_mean a !! i, artists_std a !! i,
   artists_percentiles a !! i).

(** The ellipses created for the percentiles requested of a subplot. *)
Definition new_percentile_ellipses (p : option (list R)) : list Ellipse :=
  match p with
  | Some ps => map (fun _ => new_ellipse) ps
  | None => []
  end.

(** Subplot [i] shows the points as a scatter plot, and no hexbin. *)
Definition shows_scatter (a : Artists) (i : nat) (x y : list R) : Prop :=
  exists sc, artists_scatter a !! i = Some (Some sc) /\
    visible sc = true /\ offsets sc = zip x y /\
    artists_hexbin a !! i = Some [].

(** Subplot [i] shows the points as a hexbin density plot (drawn
    twice), the scatter plot being hidden. *)
Definition shows_hexbin (a : Artists) (i : nat) (x y : list R) : Prop :=
  exists sc, artists_scatter a !! i = Some (Some sc) /\
    visible sc = false /\
    artists_hexbin a !! i =
      Some [ {| hex_x := x; hex_y := y; hex_edgecolors_none := false |};
             {| hex_x := x; hex_y := y; hex_edgecolors_none := true |} ].

End Plot.

(** *** Floats in symbolic form

    A literal, a value of the input, or the call that produced the
    value: every call of the libraries is recorded, none is evaluated.
    [plt_subplots] creates the layout it is asked for. *)
#[warnings="-register-all"]
Inductive Sym : Type :=
| Lit (z : Z)
| Half
| Input (name : string) (k : nat)
| Call (f : string) (args : list Sym).

#[global] Instance Sym_backend : Backend Sym := {|
  of_Z := Lit;
  half := Half;
  add a b := Call "add" [a; b];
  sub a b := Call "sub" [a; b];
  mul a b := Call "mul" [a; b];
  div a b := Call "div" [a; b];
  pow a b := Call "pow" [a; b];
  np_mean l := Call "mean" l;
  np_cov u v :=
    let c f := Call f [Call "row" u; Call "row" v] in
    ((c "cov00", c "cov01"), (c "cov10", c "cov11"));
  np_linalg_eig m :=
    let '((a, b), (c, d)) := m in
    let e f := Call f [a; b; c; d] in
    ((e "eval0", e "eval1"), ((e "evec00", e "evec01"), (e "evec10", e "evec11")));
  np_sqrt a := Call "sqrt" [a];
  np_arctan2 a b := Call "arctan2" [a; b];
  np_degrees a := Call "degrees" [a];
  np_percentile l p := Call "percentile" (p :: l);
  plt_subplots r c :=
    if ((0 <? r) && (0 <? c))%Z then Ok (Z.to_nat (r * c)) else Raise ValueError
|}.

End PhaseSpace.

(** ** Small lines and plots *)

Module Examples.
Import Line PhaseSpace.

Definition drift (len : Q) : Element :=
  {| el_knl := None; el_order := None; el_length := Some len |}.

(** A thin multipole: [order] is [len(knl) - 1]. *)
Definition multipole (kv : list Q) (len : option Q) : Element :=
  {| el_knl := Some kv; el_order := Some (Z.of_nat (length kv) - 1)%Z;
     el_length := len |}.

(** A drift of length 10 followed by a thin multipole of length 2. *)
Definition multipole_at_end : Line :=
  {| element_names := ["d"; "m"]; elements := [drift 10; multipole [1] (Some 2)];
     s_upstream := [0; 10]; s_downstream := [10; 10]; get_length := 10 |}.

(** The same multipole followed by the drift. *)
Definition multipole_at_start : Line :=
  {| element_names := ["m"; "d"]; elements := [multipole [1] (Some 2); drift 10];
     s_upstream := [0; 0]; s_downstream := [0; 10]; get_length := 10 |}.

Definition three_points : list Q := [0; 5; 10].

(** A line of length 10 that reports a thin multipole, without length,
    at position 12. *)
Definition multipole_beyond_end : Line :=
  {| element_names := ["m"]; elements := [multipole [1] None];
     s_upstream := [12]; s_downstream := [12]; get_length := 10 |}.

(** A drift and a thin multipole without length inside the line. *)
Definition multipole_inside : Line :=
  {| element_names := ["d"; "m"]; elements := [drift 10; multipole [1; 2] None];
     s_upstream := [0; 10]; s_downstream := [10; 10]; get_length := 10 |}.

Definition samples (name : string) (n : nat) : list Sym :=
  map (Input name) (seq 0 n).

Definition four_particles : gmap string (list Sym) :=
  list_to_map [("x", samples "x" 4); ("px", samples "px" 4);
               ("y", samples "y" 4); ("py", samples "py" 4)]%string.

Definition two_subplots : Args :=
  {| arg_kind := KindStr "x,y"; arg_plot := "auto"; arg_ax := AxNone;
     arg_mean := FlagBool true; arg_std := FlagBool true;
     arg_percentiles := PctFlat [Lit 90]; arg_grid := None;
     arg_factor_for := fun _ => Lit 1 |}.

(** The plot that the constructor returns for [two_subplots]. *)
Definition two_plots : PhaseSpacePlot :=
  Eval vm_compute in
    match init_plot two_subplots with
    | Ok p => p
    | Raise _ =>
        {| config := {| kind := []; plot := ""; percentiles := []; n_axes := 0;
                        factor_for := fun _ => Lit 1 |};
           arts := {| artists_scatter := []; artists_hexbin := [];
                      artists_mean := []; artists_std := [];
                      artists_percentiles := [] |} |}
    end.

(** [two_subplots] with a plot type that does not exist. *)
Definition two_subplots_bar : Args :=
  {| arg_kind := KindStr "x,y"; arg_plot := "bar"; arg_ax := AxNone;
     arg_mean := FlagBool true; arg_std := FlagBool true;
     arg_percentiles := PctFlat [Lit 90]; arg_grid := None;
     arg_factor_for := fun _ => Lit 1 |}.

(** The same, with an empty list of percentiles. *)
Definition two_subplots_bar_empty : Args :=
  {| arg_kind := KindStr "x,y"; arg_plot := "bar"; arg_ax := AxNone;
     arg_mean := FlagBool true; arg_std := FlagBool true;
     arg_percentiles := PctFlat []; arg_grid := None;
     arg_factor_for := fun _ => Lit 1 |}.

(** [two_subplots] on an empty list of axes. *)
Definition two_subplots_no_axes : Args :=
  {| arg_kind := KindStr "x,y"; arg_plot := "auto"; arg_ax := AxSeq 0;
     arg_mean := FlagBool true; arg_std := FlagBool true;
     arg_percentiles := PctFlat [Lit 90]; arg_grid := None;
     arg_factor_for := fun _ => Lit 1 |}.

(** Two plots of the orders 0 and 1 on the same grid, with different
    artists. *)
Definition knl_plot_filled : KnlPlot :=
  {| knl := [0; 1]%Z; S := three_points; filled := true;
     artists := [ {| art_x := three_points; art_y := [0; 0; 0] |};
                  {| art_x := three_points; art_y := [0; 0; 0] |} ];
     factor_s := 1; factor_k := fun _ => 1 |}.

Definition knl_plot_lines : KnlPlot :=
  {| knl := [0; 1]%Z; S := three_points; filled := false;
     artists := [ {| art_x := [7]; art_y := [7] |} ];
     factor_s := 2; factor_k := fun _ => 3 |}.

(** [two_plots] after an update with the particles 1 and 3. *)
Definition two_plots_updated : PhaseSpacePlot :=
  Eval vm_compute in
    match update two_plots four_particles (Some [1; 3]%Z) with
    | Ok p => p
    | Raise _ => two_plots
    end.

(** [two_plots] after an update with all four particles. *)
Definition two_plots_after : PhaseSpacePlot :=
  Eval vm_compute in
    match update two_plots four_particles None with
    | Ok p => p
    | Raise _ => two_plots
    end.

(** The KNL array of [multipole_at_start] for the orders 0 and 1. *)
Definition knl_at_start : list (list Q) := [[1; 0; 1]; [0; 0; 0]].

End Examples.

(** ** The knl curve, grid point by grid point *)

Module LinePoint.
Import Line.

(** Whether the interval [s0, s1) of an element selects the grid point
    [s]: the test of [KnlPlot.update] at one point of [self.S]. *)
Definition selects (Smax s0 s1 s : Q) : result bool :=
  if Qle_bool 0 s0 && Qle_bool s0 Smax then
    Ok (Qle_bool s0 s && Qltb s s1)
  else
    a ← mod_ s0 Smax;
    b ← mod_ s1 Smax;
    Ok (Qle_bool a s || Qltb s b).

(** What one element adds to the value [acc] of the curve of order [n]
    at the grid point [s]. *)
Definition point_step (Smax : Q) (n : Z) (s : Q) (acc : Q) (it : Item) : Q :=
  let '(_, el, s0, s1) := it in
  match el_knl el, el_order el with
  | Some kv, Some o =>
      if (n <=? o)%Z then
        match selects Smax s0 s1 s, index kv n with
        | Ok true, Ok v => acc + v
        | _, _ => acc
        end
      else acc
  | _, _ => acc
  end.

(** The curve of order [n] at the grid point [s]: the contributions of
    the elements, added in the order of the line. *)
Definition knl_at (Smax : Q) (n : Z) (s : Q) (items : list Item) : Q :=
  fold_left (point_step Smax n s) items 0.

End LinePoint.

(** ** Conditions on plots, particles and arguments *)

Module PhaseSpaceSpec.
Import PhaseSpace.

(** The indicator of a subplot exists: the test [if self.artists_std[i]]. *)
Definition has_artist {A} (o : option (option A)) : bool :=
  match o with
  | Some (Some _) => true
  | _ => false
  end.

(** The number of occurrences of a character in a string. *)
Fixpoint count_char (c : ascii) (s : string) : nat :=
  match s with
  | EmptyString => 0
  | String c' s' => (if Ascii.eqb c' c then 1 else 0) + count_char c s'
  end.

(** A subplot string that the parser takes: one dash, or no dash and an
    abbreviation. *)
Definition subplot_string_ok (s : string) : Prop :=
  count_char "-" s = 1%nat \/
  (count_char "-" s = 0%nat /\ abbreviations s <> None).

Section Spec.

Context {R : Type} `{Backend R}.

(** A coordinate of the pair [k] is not among the particles: the first
    one, or the second one when the first can be read. *)
Definition missing (particles : gmap string (list R))
    (mask : option (list Z)) (k : list string) : Prop :=
  exists ca cb, k = [ca; cb] /\
    (particles !! ca = None \/
     (is_ok (masked particles ca mask) /\ particles !! cb = None)).

(** There is an axes to read the figure from, and one for each of the
    [n] subplots. *)
Definition axes_enough (n : nat) (ax : AxArg) (grid : option (list Z)) : Prop :=
  match ax with
  | AxNone => (1 <= n)%nat \/ truthy grid = true
  | AxSingle => (n <= 1)%nat
  | AxSeq k => (1 <= k)%nat /\ (n <= k)%nat
  end.

End Spec.

End PhaseSpaceSpec.

(** ** Facts about the Python layer *)

(** From [x ← c; k = Ok r]: [c] returned. *)
Ltac inv_bind H :=
  match type of H with
  | mbind _ ?c = Ok _ =>
      let E := fresh "E" in
      destruct c eqn:E; simpl in H; [|discriminate H]
  end.

Section PyFacts.

Context {A St : Type}.
Implicit Types (body : St -> A -> result St) (xs : list A) (s : St).

(** A loop whose body never raises on states of an invariant returns,
    and its result is in the invariant. *)
Lemma for_each_inv (I : St -> Prop) body xs s :
  I s ->
  (forall s0 x, x ∈ xs -> I s0 -> exists s1, body s0 x = Ok s1 /\ I s1) ->
  exists s', for_each body xs s = Ok s' /\ I s'.
Proof.
  revert s; induction xs as [|x xs IH]; intros s Hs Hbody; simpl.
  - eauto.
  - destruct (Hbody s x) as (s1 & -> & Hs1); [left | assumption |].
    simpl. apply IH; [assumption|].
    intros s0 y Hy; apply Hbody; right; assumption.
Qed.

End PyFacts.

Lemma for_each_fixed {B St} (body : St -> B -> result St) xs s :
  (forall x, x ∈ xs -> body s x = Ok s) -> for_each body xs s = Ok s.
Proof.
  induction xs as [|x xs IH]; intros Hb; simpl; [reflexivity|].
  rewrite Hb by left. simpl. apply IH. intros; apply Hb; right; assumption.
Qed.

Lemma for_each_fixed_or_raise {B St} (body : St -> B -> result St) xs s s' :
  (forall x, x ∈ xs -> body s x = Ok s \/ exists e, body s x = Raise e) ->
  for_each body xs s = Ok s' -> s' = s.
Proof.
  induction xs as [|x xs IH]; intros Hb; simpl; [congruence|].
  destruct (Hb x) as [->|[e ->]]; [left | | discriminate].
  simpl. apply IH. intros; apply Hb; right; assumption.
Qed.

Lemma enumerate_elem {B} (xs : list B) i x :
  (i, x) ∈ enumerate xs -> x ∈ xs.
Proof.
  unfold enumerate. intros H. apply list_elem_of_lookup in H as [j Hj].
  apply lookup_zip_Some in Hj as [_ Hj].
  apply list_elem_of_lookup; eauto.
Qed.

Lemma for_each_preserves {B St} (I : St -> Prop)
    (body : St -> B -> result St) xs s s' :
  (forall s0 x s1, I s0 -> body s0 x = Ok s1 -> I s1) ->
  I s -> for_each body xs s = Ok s' -> I s'.
Proof.
  intros Hb. revert s; induction xs as [|x xs IH]; intros s Hs; simpl.
  - intros [= <-]; exact Hs.
  - destruct (body s x) as [s1|e] eqn:E; simpl; [|discriminate].
    apply IH. exact (Hb s x s1 Hs E).
Qed.

Lemma range_elem (n k : Z) : k ∈ range n <-> (0 <= k < n)%Z.
Proof.
  unfold range. rewrite list_elem_of_fmap. split.
  - intros (j & -> & Hj). apply elem_of_seq in Hj. lia.
  - intros Hk. exists (Z.to_nat k). split; [lia|]. apply elem_of_seq. lia.
Qed.

Lemma fold_max_ge (l : list Z) (x : Z) :
  (x <= fold_left Z.max l x)%Z /\
  (forall y, y ∈ l -> (y <= fold_left Z.max l x)%Z) /\
  (fold_left Z.max l x = x \/ fold_left Z.max l x ∈ l).
Proof.
  revert x; induction l as [|a l IH]; intros x; simpl.
  - split; [lia|]. split; [|left; reflexivity]. intros y Hy; inversion Hy.
  - destruct (IH (Z.max x a)) as (H1 & H2 & H3). split; [lia|]. split.
    + intros y Hy. apply elem_of_cons in Hy as [->|Hy]; [lia | auto].
    + destruct H3 as [H3|H3]; [|right; right; assumption].
      rewrite H3. destruct (Z.max_spec x a) as [[_ E]|[_ E]]; rewrite E;
        [right; left | left; reflexivity].
Qed.

(** ** Facts about the knl accumulation *)

Module LineFacts.
Import Line.

Lemma mask_length grid Smax s0 s1 m :
  mask grid Smax s0 s1 = Ok m -> length m = length grid.
Proof.
  unfold mask. destruct (Qle_bool 0 s0 && Qle_bool s0 Smax).
  - intros [= <-]. apply length_map.
  - destruct (mod_ s0 Smax) as [a|]; simpl; [|discriminate].
    destruct (mod_ s1 Smax) as [b|]; simpl; [|discriminate].
    intros [= <-]. apply length_map.
Qed.

(** The mask, grid point by grid point. *)
Lemma mask_lookup grid Smax s0 s1 m j s :
  mask grid Smax s0 s1 = Ok m -> grid !! j = Some s ->
  (Qle_bool 0 s0 && Qle_bool s0 Smax = true /\
     m !! j = Some (Qle_bool s0 s && Qltb s s1)) \/
  (Qle_bool 0 s0 && Qle_bool s0 Smax = false /\
     exists a b, mod_ s0 Smax = Ok a /\ mod_ s1 Smax = Ok b /\
                 m !! j = Some (Qle_bool a s || Qltb s b)).
Proof.
  unfold mask. intros Hm Hs.
  destruct (Qle_bool 0 s0 && Qle_bool s0 Smax).
  - left. injection Hm as <-. split; [reflexivity|].
    rewrite list_lookup_fmap, Hs; reflexivity.
  - right. split; [reflexivity|].
    destruct (mod_ s0 Smax) as [a|]; simpl in Hm; [|discriminate].
    destruct (mod_ s1 Smax) as [b|]; simpl in Hm; [|discriminate].
    injection Hm as <-. exists a, b. repeat split.
    rewrite list_lookup_fmap, Hs; reflexivity.
Qed.

Lemma add_masked_length v m row :
  length m = length row -> length (add_masked v m row) = length row.
Proof. intros H. unfold add_masked. rewrite length_zip_with. lia. Qed.

Lemma add_masked_lookup v (m : list bool) (row : list Q) (j : nat)
    (b : bool) (x : Q) :
  m !! j = Some b -> row !! j = Some x ->
  add_masked v m row !! j = Some (if b then x + v else x).
Proof.
  intros Hb Hx. unfold add_masked. rewrite lookup_zip_with, Hb; simpl.
  rewrite Hx; reflexivity.
Qed.

Lemma add_masked_false v row :
  add_masked v (replicate (length row) false) row = row.
Proof. induction row as [|x row IH]; simpl; [|f_equal]; auto. Qed.

Lemma alter_fixed {B} (f : B -> B) (i : nat) (l : list B) :
  (forall x, l !! i = Some x -> f x = x) -> alter f i l = l.
Proof.
  intros Hf. apply list_eq; intros j. rewrite list_lookup_alter.
  destruct (decide (i = j)) as [->|]; [|reflexivity].
  destruct (l !! j) as [x|] eqn:E; simpl; [|reflexivity].
  rewrite Hf; reflexivity.
Qed.

Lemma rows_ok_alter grid v m i KNL :
  length m = length grid -> rows_ok grid KNL ->
  rows_ok grid (alter (add_masked v m) i KNL).
Proof.
  intros Hm HK. unfold rows_ok in *. rewrite Forall_lookup in *.
  intros j row. rewrite list_lookup_alter.
  destruct (decide (i = j)) as [->|]; [|apply HK].
  destruct (KNL !! j) as [r|] eqn:E; simpl; [|discriminate].
  intros [= <-]. specialize (HK j r E). simpl in HK.
  rewrite add_masked_length; lia.
Qed.

(** One step of the accumulation for a plotted order [n] that the
    element has: the value [knl[n]] is added to row [i] at the grid points
    that the mask selects, and nothing else changes. *)
Lemma update_order_entry grid Smax el kv s0 s1 (KNL KNL' : Matrix)
    (i : nat) (n o : Z) :
  el_order el = Some o -> (n <= o)%Z ->
  update_order grid Smax el kv s0 s1 KNL (i, n) = Ok KNL' ->
  exists m v, mask grid Smax s0 s1 = Ok m /\ index kv n = Ok v /\
    (forall i', i' <> i -> KNL' !! i' = KNL !! i') /\
    (forall row (j : nat) (x : Q) (b : bool),
       KNL !! i = Some row -> row !! j = Some x -> m !! j = Some b ->
       exists row', KNL' !! i = Some row' /\
                    row' !! j = Some (if b then x + v else x)).
Proof.
  intros Ho Hle. unfold update_order. rewrite Ho. simpl.
  apply Z.leb_le in Hle. rewrite Hle. intros Hb.
  inv_bind Hb. rename a into m. inv_bind Hb. rename a into v.
  injection Hb as <-. exists m, v. split; [reflexivity|]. split; [reflexivity|].
  split.
  - intros i' Hne. apply list_lookup_alter_ne. congruence.
  - intros row j x b Hrow Hx Hm. exists (add_masked v m row). split.
    + rewrite list_lookup_alter_eq, Hrow. reflexivity.
    + apply add_masked_lookup; assumption.
Qed.

(** The interval of a thin element inside the line selects no grid point. *)
Lemma mask_thin grid Smax s0 s1 :
  s0 == s1 -> 0 <= s0 -> s0 <= Smax ->
  mask grid Smax s0 s1 = Ok (replicate (length grid) false).
Proof.
  intros Heq H0 H1. unfold mask.
  apply Qle_bool_iff in H0, H1. rewrite H0, H1; simpl. f_equal.
  induction grid as [|s grid IH]; simpl; [reflexivity|]. f_equal; [|exact IH].
  unfold Qltb. rewrite (Qleb_comp _ _ Heq s s (Qeq_refl s)).
  destruct (Qle_bool s1 s); reflexivity.
Qed.

(** One order of a thin element inside the line: the array is returned
    as it was, unless an attribute or an index is missing. *)
Lemma update_order_thin grid Smax el kv s0 s1 KNL ix :
  s0 == s1 -> 0 <= s0 -> s0 <= Smax -> rows_ok grid KNL ->
  update_order grid Smax el kv s0 s1 KNL ix = Ok KNL \/
  exists e, update_order grid Smax el kv s0 s1 KNL ix = Raise e.
Proof.
  intros Heq H0 H1 HK. destruct ix as [i n]. unfold update_order.
  destruct (el_order el) as [o|]; simpl; [|right; eauto].
  destruct (n <=? o)%Z; [|left; reflexivity].
  rewrite (mask_thin grid Smax s0 s1 Heq H0 H1); simpl.
  destruct (index kv n) as [v|e]; simpl; [left | right; eauto].
  f_equal. apply alter_fixed. intros row Hrow.
  assert (length row = length grid) as <-.
  { unfold rows_ok in HK. rewrite Forall_lookup in HK. exact (HK i row Hrow). }
  apply add_masked_false.
Qed.

Lemma update_order_thin_ok grid orders Smax el kv s0 s1 KNL i n :
  s0 == s1 -> 0 <= s0 -> s0 <= Smax -> rows_ok grid KNL ->
  el_knl el = Some kv -> wf_element orders el -> n ∈ orders ->
  update_order grid Smax el kv s0 s1 KNL (i, n) = Ok KNL.
Proof.
  intros Heq H0 H1 HK Hkv Hwf Hn.
  destruct (update_order_thin grid Smax el kv s0 s1 KNL (i, n) Heq H0 H1 HK)
    as [H|[e H]]; [exact H|]. exfalso.
  destruct (Hwf kv Hkv) as (o & Ho & Hix). unfold update_order in H.
  rewrite Ho in H; simpl in H.
  destruct (n <=? o)%Z eqn:Hle; [|discriminate].
  rewrite (mask_thin grid Smax s0 s1 Heq H0 H1) in H; simpl in H.
  destruct (Hix n Hn) as [v Hv]; [lia|]. rewrite Hv in H. discriminate.
Qed.

Lemma update_order_rows grid Smax el kv s0 s1 KNL ix KNL' :
  rows_ok grid KNL ->
  update_order grid Smax el kv s0 s1 KNL ix = Ok KNL' -> rows_ok grid KNL'.
Proof.
  intros HK. destruct ix as [i n]. unfold update_order.
  destruct (el_order el) as [o|]; simpl; [|discriminate].
  destruct (n <=? o)%Z; [|intros [= <-]; exact HK].
  destruct (mask grid Smax s0 s1) as [m|] eqn:Em; simpl; [|discriminate].
  destruct (index kv n) as [v|]; simpl; [|discriminate].
  intros [= <-]. apply rows_ok_alter; [|exact HK].
  exact (mask_length _ _ _ _ _ Em).
Qed.

Lemma update_element_rows grid orders Smax KNL it KNL' :
  rows_ok grid KNL ->
  update_element grid orders Smax KNL it = Ok KNL' -> rows_ok grid KNL'.
Proof.
  destruct it as [[[name el] s0] s1]. unfold update_element. intros HK.
  destruct (el_knl el) as [kv|]; [|intros [= <-]; exact HK].
  apply for_each_preserves; [|exact HK].
  intros K0 x K1. apply update_order_rows.
Qed.

Lemma rows_ok_zeros grid (n : nat) :
  rows_ok grid (replicate n (replicate (length grid) 0)).
Proof.
  unfold rows_ok. apply Forall_forall. intros row Hrow.
  apply elem_of_replicate in Hrow as [-> _]. apply length_replicate.
Qed.

(** A thin element without length inside the line: its step of the
    accumulation returns the array it was given. *)
Lemma update_element_thin grid orders Smax KNL name el s0 s1 :
  s0 == s1 -> 0 <= s0 -> s0 <= Smax -> rows_ok grid KNL ->
  (forall KNL', update_element grid orders Smax KNL (name, el, s0, s1) = Ok KNL' ->
                KNL' = KNL) /\
  (wf_element orders el ->
   update_element grid orders Smax KNL (name, el, s0, s1) = Ok KNL).
Proof.
  intros Heq H0 H1 HK. unfold update_element.
  destruct (el_knl el) as [kv|] eqn:Ekv.
  - split.
    + intros KNL'. apply for_each_fixed_or_raise. intros ix _.
      apply update_order_thin; assumption.
    + intros Hwf. apply for_each_fixed. intros [i n] Hin.
      apply update_order_thin_ok with (orders := orders); try assumption.
      exact (enumerate_elem _ _ _ Hin).
  - split; [intros KNL' [= <-]|]; reflexivity.
Qed.

(** No step of the accumulation raises on a line whose elements carry
    the attributes that are read, when the line has a length. *)
Lemma update_order_ok grid orders Smax el kv s0 s1 KNL i n :
  ~ Smax == 0 -> el_knl el = Some kv -> wf_element orders el -> n ∈ orders ->
  is_ok (update_order grid Smax el kv s0 s1 KNL (i, n)).
Proof.
  intros HS Hkv Hwf Hn. destruct (Hwf kv Hkv) as (o & Ho & Hix).
  unfold update_order. rewrite Ho; simpl.
  destruct (n <=? o)%Z eqn:Hle; [|eexists; reflexivity].
  assert (is_ok (mask grid Smax s0 s1)) as [m ->].
  { unfold mask, mod_. destruct (Qle_bool 0 s0 && Qle_bool s0 Smax);
      [eexists; reflexivity|].
    destruct (Qeq_bool Smax 0) eqn:E; [|eexists; reflexivity].
    apply Qeq_bool_iff in E. contradiction. }
  simpl. destruct (Hix n Hn) as [v ->]; [lia|]. eexists; reflexivity.
Qed.

Lemma update_element_ok grid orders Smax KNL it :
  ~ Smax == 0 -> wf_element orders (snd (fst (fst it))) ->
  is_ok (update_element grid orders Smax KNL it).
Proof.
  destruct it as [[[name el] s0] s1]; simpl. intros HS Hwf.
  unfold update_element. destruct (el_knl el) as [kv|] eqn:Ekv;
    [|eexists; reflexivity].
  destruct (for_each_inv (fun _ => True)
              (update_order grid Smax el kv s0 s1) (enumerate orders) KNL I)
    as (K & HK & _); [|exists K; exact HK].
  intros K0 [i n] Hin _.
  destruct (update_order_ok grid orders Smax el kv s0 s1 K0 i n HS Ekv Hwf)
    as [K1 HK1]; [exact (enumerate_elem _ _ _ Hin)|].
  exists K1; split; [exact HK1 | exact I].
Qed.

Lemma iter_element_el it : snd (fst (fst (iter_element it))) = snd (fst (fst it)).
Proof.
  destruct it as [[[name el] s0] s1]; simpl.
  destruct (Qeq_bool s0 s1); [destruct (el_length el)|]; reflexivity.
Qed.

Lemma iter_elements_el (l : Line) (it : Item) :
  it ∈ iter_elements l -> snd (fst (fst it)) ∈ elements l.
Proof.
  unfold iter_elements. intros H. apply list_elem_of_fmap in H as (it0 & -> & H).
  rewrite iter_element_el. unfold zip4 in H.
  apply elem_of_lookup_zip_with in H as (j & [name el] & [s0 s1] & -> & H1 & _).
  apply lookup_zip_Some in H1 as [_ H1]. simpl.
  apply list_elem_of_lookup; eauto.
Qed.

Lemma compute_KNL_ok orders grid (l : Line) :
  wf_line orders l ->
  exists KNL, compute_KNL orders grid l = Ok KNL /\ rows_ok grid KNL /\
              length KNL = length orders.
Proof.
  intros [HS Hel]. unfold compute_KNL.
  destruct (for_each_inv
              (fun K : Matrix => rows_ok grid K /\ length K = length orders)
              (update_element grid orders (get_length l)) (iter_elements l)
              (replicate (length orders) (replicate (length grid) 0)))
    as (K & HK & HI).
  - split; [apply rows_ok_zeros | apply length_replicate].
  - intros K0 it Hit [HK0 Hlen].
    destruct (update_element_ok grid orders (get_length l) K0 it HS) as [K1 HK1].
    { rewrite Forall_forall in Hel. apply Hel. apply iter_elements_el; exact Hit. }
    exists K1. split; [exact HK1|]. split.
    + exact (update_element_rows _ _ _ _ _ _ HK0 HK1).
    + revert HK1. clear -Hlen. revert Hlen.
      destruct it as [[[name el] s0] s1]. unfold update_element.
      destruct (el_knl el) as [kv|]; [|intros ? [= <-]; assumption].
      intros Hlen.
      apply (for_each_preserves (fun K : Matrix => length K = length orders));
        [|exact Hlen].
      intros Ka [i n] Kb Ha. unfold update_order.
      destruct (el_order el); simpl; [|discriminate].
      destruct (n <=? z)%Z; [|intros [= <-]; exact Ha].
      destruct (mask grid (get_length l) s0 s1); simpl; [|discriminate].
      destruct (index kv n); simpl; [|discriminate].
      intros [= <-]. rewrite length_alter. exact Ha.
  - exists K. tauto.
Qed.

(** Elements whose [order] is below the length of [knl], as for a
    multipole, can be read at every plotted order of a [range]. *)
Lemma wf_element_range (k : Z) (el : Element) :
  (forall kv, el_knl el = Some kv ->
     exists o, el_order el = Some o /\ (o < Z.of_nat (length kv))%Z) ->
  wf_element (range k) el.
Proof.
  intros H kv Hkv. destruct (H kv Hkv) as (o & Ho & Hlt).
  exists o. split; [exact Ho|]. intros n Hn Hle.
  apply range_elem in Hn. unfold index.
  destruct (0 <=? n)%Z eqn:E0; [|lia].
  assert (((0 <=? n) && (n <? Z.of_nat (length kv)))%Z = true) as ->.
  { apply andb_true_iff; split; [lia | apply Z.ltb_lt; lia]. }
  destruct (kv !! Z.to_nat n) as [v|] eqn:E; [eexists; reflexivity|].
  apply lookup_ge_None in E. lia.
Qed.

(** [update] returns whenever the accumulation does, with the plotted
    orders and the grid it was given. *)
Lemma update_Ok (p : KnlPlot) (line : Line) (KNL : Matrix) :
  compute_KNL (knl p) (S p) line = Ok KNL ->
  exists p' changed, update p line = Ok (p', changed, KNL) /\
                     knl p' = knl p /\ S p' = S p.
Proof.
  intros HK. unfold update. rewrite HK. simpl.
  do 2 eexists. split; [reflexivity|]. split; reflexivity.
Qed.

Lemma update_KNL (p p' : KnlPlot) (line : Line) changed (KNL : Matrix) :
  update p line = Ok (p', changed, KNL) ->
  compute_KNL (knl p) (S p) line = Ok KNL.
Proof.
  unfold update. intros Hu. inv_bind Hu. injection Hu as _ _ <-. reflexivity.
Qed.

Lemma max_spec (l : list Z) (m : Z) :
  max_ l = Ok m -> m ∈ l /\ forall o, o ∈ l -> (o <= m)%Z.
Proof.
  destruct l as [|x l]; simpl; [discriminate|]. intros [= <-].
  destruct (fold_max_ge l x) as (H1 & H2 & H3). split.
  - destruct H3 as [->|H3]; [left | right; exact H3].
  - intros o Ho. apply elem_of_cons in Ho as [->|Ho]; [exact H1 | exact (H2 o Ho)].
Qed.

(** The constructor on a line: it returns the plot of the orders it has
    determined. *)
Lemma init_line_Ok (l : Line) (knl_arg : KnlArg) (orders : list Z)
    (is_filled : bool) (resolution : nat) (line_length : option Q)
    (fs : Q) (fk : Z -> Q) :
  match knl_arg with
  | KnlNone => exists m, max_ (orders_of l) = Ok m /\ orders = range (m + 1)
  | KnlInt k => orders = range (k + 1)
  | KnlList ns => orders = ns
  end ->
  wf_line orders l ->
  exists p, init (Some l) knl_arg is_filled resolution line_length fs fk = Ok p /\
            knl p = orders.
Proof.
  intros Hord Hwf. unfold init.
  assert (match knl_arg with
          | KnlNone => m ← max_ (orders_of l); Ok (range (m + 1))
          | KnlInt k => Ok (range (k + 1))
          | KnlList ns => Ok ns
          end = Ok orders) as ->.
  { destruct knl_arg as [|k|ns]; [destruct Hord as (m & -> & ->)| |];
      subst; reflexivity. }
  simpl.
  set (stop := match line_length with
               | Some len => if negb (Qeq_bool len 0) then Ok len
                             else Ok (get_length l)
               | None => Ok (get_length l)
               end).
  assert (exists st, stop = Ok st) as [st Hst].
  { unfold stop. destruct line_length as [len|]; [|eauto].
    destruct (negb (Qeq_bool len 0)); eauto. }
  fold stop. rewrite Hst. simpl.
  destruct (compute_KNL_ok orders (linspace st resolution) l Hwf)
    as (KNL & HK & _).
  match goal with
  | |- context [update ?p l] =>
      destruct (update_Ok p l KNL HK) as (p' & ch & -> & Hk & _)
  end.
  simpl. exists p'. split; [reflexivity | exact Hk].
Qed.

End LineFacts.

(** ** Facts about loops over [enumerate] *)

Section EnumerateLoop.

Context {A St V : Type}.
Variable body : St -> nat * A -> result St.
(** What the state holds for index [i]. *)
Variable view : St -> nat -> V.
(** The body of the loop touches its own index only. *)
Hypothesis frame : forall s j x s' i,
  body s (j, x) = Ok s' -> i <> j -> view s' i = view s i.

Lemma for_each_enumerate_from (l : list A) : forall (k : nat) (s s' : St),
  for_each body (zip (seq k (length l)) l) s = Ok s' ->
  (forall i, (i < k \/ k + length l <= i)%nat -> view s' i = view s i) /\
  (forall i x, l !! i = Some x ->
     exists s1 s2, view s1 (k + i)%nat = view s (k + i)%nat /\
                   body s1 ((k + i)%nat, x) = Ok s2 /\
                   view s' (k + i)%nat = view s2 (k + i)%nat).
Proof.
  induction l as [|x0 l IH]; intros k s s'; simpl.
  - intros [= <-]. split; [reflexivity|]. intros i x Hx; inversion Hx.
  - destruct (body s (k, x0)) as [s1|e] eqn:E; simpl; [|discriminate].
    intros Hrest. destruct (IH (Datatypes.S k) s1 s' Hrest) as [IH1 IH2]. split.
    + intros i Hi. rewrite IH1 by lia. apply (frame _ _ _ _ _ E). lia.
    + intros [|i] x Hx; simpl in Hx.
      * injection Hx as <-. exists s, s1. rewrite Nat.add_0_r.
        split; [reflexivity|]. split; [exact E|]. apply IH1. lia.
      * destruct (IH2 i x Hx) as (s2 & s3 & H1 & H2 & H3).
        replace (k + Datatypes.S i)%nat with (Datatypes.S k + i)%nat by lia.
        exists s2, s3. split; [|split; assumption].
        rewrite H1. apply (frame _ _ _ _ _ E). lia.
Qed.

Lemma for_each_enumerate (l : list A) (s s' : St) :
  for_each body (enumerate l) s = Ok s' ->
  (forall i, (length l <= i)%nat -> view s' i = view s i) /\
  (forall i x, l !! i = Some x ->
     exists s1 s2, view s1 i = view s i /\ body s1 (i, x) = Ok s2 /\
                   view s' i = view s2 i).
Proof.
  intros Hl. destruct (for_each_enumerate_from l 0 s s' Hl) as [H1 H2].
  split; [intros i Hi; apply H1; lia | exact H2].
Qed.

(** A loop whose body returns on every state of an invariant returns. *)
Lemma for_each_enumerate_ok (I : St -> Prop) (l : list A) (s : St) :
  I s ->
  (forall s0 i x, l !! i = Some x -> I s0 ->
     exists s1, body s0 (i, x) = Ok s1 /\ I s1) ->
  exists s', for_each body (enumerate l) s = Ok s' /\ I s'.
Proof.
  intros Hs Hb. apply for_each_inv; [exact Hs|].
  intros s0 [i x] Hin. apply Hb. unfold enumerate in Hin.
  apply list_elem_of_lookup in Hin as [j Hj].
  apply lookup_zip_Some in Hj as [Hi Hx].
  apply lookup_seq in Hi as [-> _]. exact Hx.
Qed.

End EnumerateLoop.

(** ** Facts about [PhaseSpacePlot.update] *)


Module PhaseSpaceFacts.
Import PhaseSpace.

Section Update.

Context {R : Type} `{Backend R}.
Implicit Types (cfg : @Config R) (a : @Artists R)
  (particles : gmap string (list R)) (mask : option (list Z)) (st : @Stats R).

Lemma getitem_Ok {B} (l : list B) (i : nat) (x : B) :
  getitem l i = Ok x <-> l !! i = Some x.
Proof.
  unfold getitem. destruct (l !! i); split; intros E; congruence.
Qed.

Lemma update_percentile_frame st es jp es' :
  update_percentile st es jp = Ok es' -> length es' = length es.
Proof.
  destruct jp as [j p]. unfold update_percentile. intros Hb. inv_bind Hb.
  injection Hb as <-. apply length_insert.
Qed.

(** The loop over the requested percentiles sets ellipse [j] from
    percentile [j], and no other. *)
Lemma update_percentiles_lookup st (ps : list R) (es es' : list Ellipse) :
  for_each (update_percentile st) (enumerate ps) es = Ok es' ->
  length es' = length es /\
  (forall j p, ps !! j = Some p -> es' !! j = Some (percentile_ellipse st p)) /\
  (forall j, (length ps <= j)%nat -> es' !! j = es !! j).
Proof.
  intros Hl.
  destruct (for_each_enumerate (update_percentile st)
              (fun (l : list Ellipse) j => l !! j)) with (l := ps) (s := es) (s' := es')
    as [Hout Hin]; [| exact Hl |].
  - intros s j p s' i Hb Hij. unfold update_percentile in Hb. inv_bind Hb.
    injection Hb as <-. apply list_lookup_insert_ne. congruence.
  - split; [|split].
    + revert Hl. apply (for_each_preserves (fun l => length l = length es));
        [|reflexivity].
      intros s0 x s1 Hs0 Hb. rewrite (update_percentile_frame _ _ _ _ Hb). exact Hs0.
    + intros j p Hp. destruct (Hin j p Hp) as (s1 & s2 & _ & Hb & ->).
      unfold update_percentile in Hb. inv_bind Hb. injection Hb as <-.
      apply getitem_Ok in E. apply list_lookup_insert_eq.
      apply lookup_lt_Some in E. exact E.
    + exact Hout.
Qed.

Lemma update_percentiles_ok st (ps : list R) (es : list Ellipse) :
  (length ps <= length es)%nat ->
  exists es', for_each (update_percentile st) (enumerate ps) es = Ok es'.
Proof.
  intros Hlen.
  destruct (for_each_enumerate_ok (update_percentile st)
              (fun l => length l = length es) ps es eq_refl) as (es' & Hes' & _).
  - intros s0 j p Hp Hs0. unfold update_percentile.
    destruct (s0 !! j) as [e|] eqn:E.
    + apply getitem_Ok in E. rewrite E. simpl. eexists; split; [reflexivity|].
      rewrite length_insert. exact Hs0.
    + apply lookup_ge_None in E. apply lookup_lt_Some in Hp. lia.
  - eauto.
Qed.

Lemma update_subplot_frame cfg particles mask a j k a' i :
  update_subplot cfg particles mask a (j, k) = Ok a' -> i <> j ->
  view a' i = view a i.
Proof.
  unfold update_subplot. intros Hb Hij.
  inv_bind Hb. destruct a0 as [ca cb]. do 5 inv_bind Hb.
  do 4 inv_bind Hb. inv_bind Hb. injection Hb as <-.
  unfold view; simpl.
  rewrite !list_lookup_insert_ne by congruence.
  destruct a6, a7; rewrite ?list_lookup_insert_ne by congruence; reflexivity.
Qed.

Lemma unpack2_Ok (k : list string) ca cb :
  unpack2 k = Ok (ca, cb) <-> k = [ca; cb].
Proof.
  unfold unpack2. destruct k as [|x [|y [|z k]]]; split; intros E;
    try discriminate; congruence.
Qed.

Lemma update_subplot_own cfg particles mask a i k a' :
  update_subplot cfg particles mask a (i, k) = Ok a' ->
  subplot_post cfg particles mask i k (view a i) (view a' i).
Proof.
  unfold update_subplot. intros Hb.
  inv_bind Hb. destruct a0 as [ca cb]. apply unpack2_Ok in E.
  inv_bind Hb. rename a0 into xa. inv_bind Hb. rename a0 into yb.
  inv_bind Hb. destruct (length _ =? length _)%nat eqn:Elen in E2;
    [|discriminate]. clear E2. apply Nat.eqb_eq in Elen.
  rewrite !length_map in Elen.
  inv_bind Hb. inv_bind Hb. destruct a1 as [sc0|]; [|discriminate].
  injection E3 as <-. apply getitem_Ok in E2.
  inv_bind Hb. apply getitem_Ok in E3. rename a1 into hx.
  inv_bind Hb. apply getitem_Ok in E4. rename a1 into m.
  inv_bind Hb. apply getitem_Ok in E5. rename a1 into s.
  inv_bind Hb. apply getitem_Ok in E6. rename a1 into es.
  inv_bind Hb. rename a1 into es'. injection Hb as <-.
  exists ca, cb, xa, yb, sc0, hx, m, s, es, es'.
  split; [exact E|]. split; [exact E0|]. split; [exact E1|].
  split; [exact Elen|]. split.
  { unfold view. rewrite E2, E3, E4, E5, E6. reflexivity. }
  unfold view, scaled; simpl. split.
  - destruct m, s;
      rewrite ?list_lookup_insert_eq by (eapply lookup_lt_Some; eassumption);
      rewrite ?E4, ?E5; reflexivity.
  - destruct es as [|e es]; [injection E7 as <-; reflexivity|].
    inv_bind E7. apply getitem_Ok in E8. destruct a1 as [ps|]; [|discriminate].
    exists ps. split; [exact E8 | exact E7].
Qed.

Lemma update_subplot_ok cfg particles mask a i k :
  wf_at cfg a i -> kind cfg !! i = Some k -> coords_ok particles mask k ->
  exists a', update_subplot cfg particles mask a (i, k) = Ok a'.
Proof.
  intros (k0 & sc & hx & m & s & es & Hk0 & Hlen & Hv & Hes) Hk
         (ca & cb & xa & yb & -> & Hxa & Hyb & Hl).
  unfold view in Hv. injection Hv as Hsc Hhx Hm Hs Hpc.
  unfold update_subplot; simpl. rewrite Hxa, Hyb; simpl.
  rewrite !length_map, Hl, Nat.eqb_refl; simpl.
  apply getitem_Ok in Hsc, Hhx, Hm, Hs, Hpc.
  rewrite Hsc; simpl. rewrite Hhx; simpl. rewrite Hm; simpl.
  rewrite Hs; simpl. rewrite Hpc; simpl.
  destruct es as [|e es]; simpl; [eexists; reflexivity|].
  destruct Hes as (ps & Hps & Hle); [discriminate|].
  apply getitem_Ok in Hps. rewrite Hps; simpl.
  destruct (update_percentiles_ok
              (statistics (map (mul (factor_for cfg ca)) xa)
                          (map (mul (factor_for cfg cb)) yb)) ps (e :: es) Hle)
    as [es' ->].
  simpl. eexists; reflexivity.
Qed.

(** A pass of the loop keeps every subplot well formed. *)
Lemma update_subplot_wf cfg particles mask a i k a' j :
  update_subplot cfg particles mask a (i, k) = Ok a' ->
  wf_at cfg a j -> wf_at cfg a' j.
Proof.
  intros Hb Hwf. destruct (decide (j = i)) as [->|Hne].
  - destruct (update_subplot_own _ _ _ _ _ _ _ Hb)
      as (ca & cb & xa & yb & sc & hx & m & s & es & es' & _ & _ & _ & _
          & Hv & Hv' & Hes).
    destruct Hwf as (k0 & sc0 & hx0 & m0 & s0 & es0 & Hk0 & Hlen & Hv0 & Hes0).
    rewrite Hv in Hv0. injection Hv0 as <- <- <- <- <-.
    exists k0. do 5 eexists. split; [exact Hk0|]. split; [exact Hlen|].
    split; [exact Hv'|]. intros Hne.
    destruct es as [|e es]; [contradiction|].
    destruct Hes0 as (ps & Hps & Hle); [discriminate|].
    destruct Hes as (ps' & Hps' & Hloop).
    rewrite Hps in Hps'. injection Hps' as <-.
    exists ps. split; [exact Hps|].
    destruct (update_percentiles_lookup _ _ _ _ Hloop) as [-> _]. exact Hle.
  - unfold wf_at. rewrite (update_subplot_frame _ _ _ _ _ _ _ _ Hb Hne).
    exact Hwf.
Qed.

Lemma lookup_subplots cfg (i : nat) (k : list string) :
  take (n_axes cfg) (kind cfg) !! i = Some k <->
  (i < n_subplots cfg)%nat /\ kind cfg !! i = Some k.
Proof.
  unfold n_subplots. split.
  - intros Hk. split; [exact (lookup_lt_Some _ _ _ Hk)|].
    apply lookup_take_Some in Hk as [Hk _]. exact Hk.
  - intros [Hi Hk]. rewrite length_take in Hi.
    rewrite lookup_take_lt by lia. exact Hk.
Qed.

(** [update] returns on a well-formed plot and well-formed particles, and
    the plot it returns is well formed. *)
Lemma update_ok (p : PhaseSpacePlot) particles mask :
  wf_plot p -> wf_input (config p) particles mask ->
  exists p', update p particles mask = Ok p' /\ config p' = config p /\
             wf_plot p'.
Proof.
  intros Hwf Hin. unfold update.
  destruct (for_each_enumerate_ok
              (update_subplot (config p) particles mask)
              (fun a => forall i, (i < n_subplots (config p))%nat ->
                                  wf_at (config p) a i)
              (take (n_axes (config p)) (kind (config p))) (arts p) Hwf)
    as (a' & Ha' & Hwf').
  - intros a0 i k Hk Ha0. apply lookup_subplots in Hk as [Hi Hk].
    destruct (update_subplot_ok (config p) particles mask a0 i k
                (Ha0 i Hi) Hk (Hin i k Hi Hk)) as [a1 Ha1].
    exists a1. split; [exact Ha1|]. intros j Hj.
    exact (update_subplot_wf _ _ _ _ _ _ _ _ Ha1 (Ha0 j Hj)).
  - rewrite Ha'; simpl. eexists. split; [reflexivity|].
    split; [reflexivity | exact Hwf'].
Qed.

(** What [update] leaves in the artists of subplot [i]. *)
Lemma update_view (p p' : PhaseSpacePlot) particles mask i k :
  update p particles mask = Ok p' ->
  (i < n_subplots (config p))%nat -> kind (config p) !! i = Some k ->
  subplot_post (config p) particles mask i k
    (view (arts p) i) (view (arts p') i).
Proof.
  unfold update. intros Hu Hi Hk. inv_bind Hu. injection Hu as <-. simpl.
  destruct (for_each_enumerate (update_subplot (config p) particles mask) view
              (update_subplot_frame (config p) particles mask)
              (take (n_axes (config p)) (kind (config p))) (arts p) a E)
    as [_ Hin].
  destruct (Hin i k) as (a1 & a2 & H1 & H2 & H3).
  { apply lookup_subplots. split; assumption. }
  rewrite H3, <- H1. apply update_subplot_own. exact H2.
Qed.

End Update.

End PhaseSpaceFacts.

(** ** Facts about the parser of [kind] *)

Lemma split_nonempty (sep : ascii) (s : string) : split sep s <> [].
Proof.
  destruct s as [|c s]; simpl; [discriminate|].
  destruct (Ascii.eqb c sep); [discriminate|].
  destruct (split sep s); discriminate.
Qed.

(** Joining the pieces with the separator gives the string back. *)
Lemma join_split (sep : ascii) (s : string) : join sep (split sep s) = s.
Proof.
  induction s as [|c s IH]; [reflexivity|].
  cbn [split]. destruct (Ascii.eqb c sep) eqn:Ec.
  - apply Ascii.eqb_eq in Ec as ->.
    pose proof (split_nonempty sep s) as Hne.
    destruct (split sep s) as [|w ws] eqn:E; [contradiction|].
    cbn [join]. cbn [join] in IH. rewrite IH. reflexivity.
  - pose proof (split_nonempty sep s) as Hne.
    destruct (split sep s) as [|w ws] eqn:E; [contradiction|].
    cbn [join] in *. destruct ws as [|w' ws]; simpl; rewrite <- IH; reflexivity.
Qed.

Module ParserFacts.
Import PhaseSpace.

Lemma parse_step_spec (done rest : list KindEntry) (e : KindEntry) :
  parse_step (done ++ e :: rest) (length done) =
  e' ← parse_entry_spec e; Ok (done ++ e' :: rest).
Proof.
  unfold parse_step. rewrite list_lookup_middle by reflexivity.
  destruct e as [s|cs]; simpl; [|reflexivity].
  fold (expand (split "-" s)).
  destruct (length (expand (split "-" s)) =? 2)%nat; simpl; [|reflexivity].
  f_equal. rewrite insert_app_r_alt by lia.
  rewrite Nat.sub_diag. reflexivity.
Qed.

(** The loop that rewrites [kind] in place computes the parser of the
    description, entry by entry. *)
Lemma parse_loop_spec (rest : list KindEntry) : forall done : list KindEntry,
  for_each parse_step (seq (length done) (length rest)) (done ++ rest) =
  rest' ← parse_entries_spec rest; Ok (done ++ rest').
Proof.
  induction rest as [|e rest IH]; intros done; simpl.
  - reflexivity.
  - rewrite parse_step_spec. destruct (parse_entry_spec e) as [e'|x]; simpl;
      [|reflexivity].
    replace (done ++ e' :: rest) with ((done ++ [e']) ++ rest)
      by (rewrite <- app_assoc; reflexivity).
    replace (Datatypes.S (length done)) with (length (done ++ [e']))
      by (rewrite length_app; simpl; lia).
    rewrite IH. destruct (parse_entries_spec rest); simpl; [|reflexivity].
    rewrite <- app_assoc. reflexivity.
Qed.

Lemma parse_kind_refines (kind : KindArg) :
  parse_kind kind = parse_kind_spec kind.
Proof.
  unfold parse_kind, parse_kind_spec. fold (entries kind).
  pose proof (parse_loop_spec (entries kind) []) as Hl. simpl in Hl.
  rewrite Hl. destruct (parse_entries_spec (entries kind)); reflexivity.
Qed.

(** The parser raises nothing but [ValueError], and raises it exactly
    when some string entry is not a pair. *)
Lemma parse_entries_spec_cases (es : list KindEntry) :
  (exists ks, parse_entries_spec es = Ok ks /\
     Forall2 (fun e k => parse_entry_spec e = Ok k) es ks) \/
  (parse_entries_spec es = Raise ValueError /\
     exists s, KStr s ∈ es /\ length (expand (split "-" s)) <> 2%nat).
Proof.
  induction es as [|e es IH]; simpl.
  - left. exists []. split; [reflexivity | constructor].
  - destruct (parse_entry_spec e) as [k|x] eqn:E; simpl.
    + destruct IH as [(ks & -> & HF)|(-> & s & Hs & Hlen)]; simpl.
      * left. exists (k :: ks). split; [reflexivity|]. constructor; assumption.
      * right. split; [reflexivity|]. exists s. split; [right|]; assumption.
    + right. destruct e as [s|cs]; simpl in E; [|discriminate].
      destruct (length (expand (split "-" s)) =? 2)%nat eqn:El; [discriminate|].
      injection E as <-. split; [reflexivity|]. exists s. split; [left|].
      apply Nat.eqb_neq. exact El.
Qed.

Lemma parse_entries_spec_bad (es : list KindEntry) (s : string) :
  KStr s ∈ es -> length (expand (split "-" s)) <> 2%nat ->
  parse_entries_spec es = Raise ValueError.
Proof.
  intros Hs Hlen. destruct (parse_entries_spec_cases es)
    as [(ks & _ & HF)|[-> _]]; [|reflexivity].
  exfalso. apply list_elem_of_lookup in Hs as [i Hi].
  destruct (Forall2_lookup_l _ _ _ _ _ HF Hi) as (k & _ & Hk).
  simpl in Hk. apply Nat.eqb_neq in Hlen. rewrite Hlen in Hk. discriminate.
Qed.

(** A pair of tokens comes from a dash between them, or from an
    abbreviation. *)
Lemma expand_pair (s a b : string) :
  expand (split "-" s) = [a; b] ->
  s = (a ++ "-" ++ b)%string \/ abbreviations s = Some [a; b].
Proof.
  intros He. pose proof (join_split "-" s) as Hj.
  destruct (split "-" s) as [|t [|u [|v ws]]] eqn:E; simpl in He.
  - discriminate.
  - simpl in Hj. subst t. right.
    destruct (abbreviations s) as [tuple|]; [congruence | discriminate].
  - injection He as -> ->. left. simpl in Hj. symmetry. exact Hj.
  - discriminate.
Qed.

End ParserFacts.

(** ** Facts about [PhaseSpacePlot.__init__] *)

Lemma enumerate_lookup {B} (xs : list B) (i : nat) (x : B) :
  (i, x) ∈ enumerate xs <-> xs !! i = Some x.
Proof.
  unfold enumerate. split.
  - intros Hin. apply list_elem_of_lookup in Hin as [j Hj].
    apply lookup_zip_Some in Hj as [Hi Hx].
    apply lookup_seq in Hi as [-> _]. exact Hx.
  - intros Hx. apply list_elem_of_lookup. exists i.
    apply lookup_zip_Some. split; [|exact Hx].
    apply lookup_seq. split; [reflexivity|]. exact (lookup_lt_Some _ _ _ Hx).
Qed.

(** A loop whose body either keeps an invariant or raises [e] on the
    elements of [bad]: it raises [e] when it meets one, and returns
    otherwise. *)
Lemma for_each_bad {B St} (body : St -> B -> result St) (I : St -> Prop)
    (bad : B -> Prop) (e : exn) (xs : list B) : forall s : St,
  I s ->
  (forall s0 x, x ∈ xs -> I s0 ->
     (~ bad x /\ exists s1, body s0 x = Ok s1 /\ I s1) \/
     (bad x /\ body s0 x = Raise e)) ->
  (Exists bad xs -> for_each body xs s = Raise e) /\
  (Forall (fun x => ~ bad x) xs -> exists s', for_each body xs s = Ok s' /\ I s').
Proof.
  induction xs as [|x xs IH]; intros s Hs Hb; simpl.
  - split; [intros Hex; inversion Hex | eauto].
  - destruct (Hb s x) as [(Hnb & s1 & -> & Hs1)|(Hbad & ->)];
      [left | exact Hs | | ]; simpl.
    + destruct (IH s1 Hs1) as [IH1 IH2].
      { intros s0 y Hy. apply Hb. right. exact Hy. }
      split.
      * intros Hex. apply Exists_cons in Hex as [Hx|Hex]; [contradiction|auto].
      * intros Hall. apply Forall_cons in Hall as [_ Hall]. auto.
    + split; [reflexivity|].
      intros Hall. apply Forall_cons in Hall as [Hx _]. contradiction.
Qed.

(** A list with a head is a pair with room for [n], or it is not. *)
Lemma classic_pair (g : Z) (gs : list Z) (n : nat) :
  (exists g1, gs = [g1] /\ (Z.of_nat n <= g * g1)%Z) \/
  ~ (exists g1, gs = [g1] /\ (Z.of_nat n <= g * g1)%Z).
Proof.
  destruct gs as [|g1 [|g2 gs]].
  - right. intros (x & E & _). discriminate.
  - destruct (Z_le_gt_dec (Z.of_nat n) (g * g1)) as [Hle|Hgt].
    + left. eauto.
    + right. intros (x & [= <-] & Hle). lia.
  - right. intros (x & E & _). discriminate.
Qed.

Module InitFacts.
Import PhaseSpace PhaseSpaceFacts.

Section Init.

Context {R : Type} `{Backend R}.

Lemma create_subplot_cases (mean std : list bool)
    (pct : list (option (list R))) (n : nat) (a : Artists) (i : nat)
    (k : list string) :
  (i < n)%nat -> length mean = n -> length std = n -> length pct = n ->
  lens n a ->
  (~ length k <> 2%nat /\
   exists a', create_subplot mean std pct a (i, k) = Ok a' /\ lens n a') \/
  (length k <> 2%nat /\ create_subplot mean std pct a (i, k) = Raise ValueError).
Proof.
  intros Hi Hm Hs Hp (L1 & L2 & L3 & L4 & L5). unfold create_subplot.
  destruct k as [|ca [|cb [|cc k]]]; simpl;
    try (right; split; [lia | reflexivity]).
  left. split; [lia|].
  destruct (lookup_lt_is_Some_2 (artists_scatter a) i) as [x Hx]; [lia|].
  destruct (lookup_lt_is_Some_2 mean i) as [m Hmi]; [lia|].
  destruct (lookup_lt_is_Some_2 std i) as [s Hsi]; [lia|].
  destruct (lookup_lt_is_Some_2 pct i) as [p Hpi]; [lia|].
  unfold getitem. rewrite Hx, Hmi, Hsi, Hpi; simpl.
  eexists; split; [reflexivity|]. unfold lens; simpl.
  rewrite length_insert, length_app; simpl.
  repeat split; try lia.
  - destruct m; rewrite ?length_insert; exact L3.
  - destruct s; rewrite ?length_insert; exact L4.
  - destruct p as [[|q qs]|]; rewrite ?length_insert; exact L5.
Qed.

Lemma grid_bad_iff (n : nat) (grid : option (list Z)) :
  grid_bad n grid = true <-> grid_wrong n grid.
Proof.
  unfold grid_bad, grid_wrong. split.
  - destruct grid as [[|g0 [|g1 [|g2 gs]]]|]; try discriminate; intros Hb;
      eexists; (split; [reflexivity|]); (split; [discriminate|]);
      intros (a & b & E & Hle); try discriminate.
    injection E as <- <-. apply Z.ltb_lt in Hb. lia.
  - intros (gs & -> & Hne & Hno).
    destruct gs as [|g0 [|g1 [|g2 gs]]]; try reflexivity; [contradiction|].
    apply Z.ltb_lt. destruct (Z.lt_ge_cases (g0 * g1) (Z.of_nat n)) as [Hlt|Hge];
      [exact Hlt|]. exfalso. apply Hno. exists g0, g1. split; [reflexivity|lia].
Qed.

Lemma plot_ok_iff (p : string) : plot_ok p = false <-> plot_wrong p.
Proof.
  unfold plot_ok, plot_wrong. rewrite !orb_false_iff, !String.eqb_neq. tauto.
Qed.

(** The five checks of the arguments raise [ValueError] or pass. *)
Lemma check_args_cases (n : nat) (mean std : list bool)
    (pct : list (option (list R))) (grid : option (list Z)) (p : string) :
  (check_args n mean std pct grid p = Raise ValueError /\
   (length mean <> n \/ length std <> n \/ length pct <> n \/
    grid_wrong n grid \/ plot_wrong p)) \/
  (check_args n mean std pct grid p = Ok tt /\
   length mean = n /\ length std = n /\ length pct = n /\
   ~ grid_wrong n grid /\ ~ plot_wrong p).
Proof.
  unfold check_args.
  destruct (length mean =? n)%nat eqn:E1; simpl;
    [apply Nat.eqb_eq in E1 | apply Nat.eqb_neq in E1; left; tauto].
  destruct (length std =? n)%nat eqn:E2; simpl;
    [apply Nat.eqb_eq in E2 | apply Nat.eqb_neq in E2; left; tauto].
  destruct (length pct =? n)%nat eqn:E3; simpl;
    [apply Nat.eqb_eq in E3 | apply Nat.eqb_neq in E3; left; tauto].
  destruct (grid_bad n grid) eqn:E4;
    [apply grid_bad_iff in E4; left; tauto|].
  destruct (plot_ok p) eqn:E5; simpl;
    [|apply plot_ok_iff in E5; left; tauto].
  right. repeat split; try assumption.
  - intros Hg. apply grid_bad_iff in Hg. congruence.
  - intros Hp. apply plot_ok_iff in Hp. congruence.
Qed.

Lemma sanitize_flag_length (n : nat) (f : FlagArg) :
  length (sanitize_flag n f) <> n <-> flag_wrong n f.
Proof.
  destruct f as [b|bs]; simpl; [|tauto].
  rewrite length_replicate. tauto.
Qed.

Lemma sanitize_percentiles_cases (n : nat) (p : PctArg R) :
  (percentiles_empty p /\ sanitize_percentiles n p = Raise IndexError) \/
  (~ percentiles_empty p /\
   exists pct, sanitize_percentiles n p = Ok pct /\
               (length pct <> n <-> percentiles_wrong n p)).
Proof.
  unfold percentiles_empty.
  destruct p as [|[|q ps]|[|qs pss]]; simpl.
  - right. split; [intros [E|E]; discriminate|]. eexists; split; [reflexivity|].
    rewrite length_replicate. tauto.
  - left. split; [left|]; reflexivity.
  - right. split; [intros [E|E]; discriminate|]. eexists; split; [reflexivity|].
    rewrite length_replicate. tauto.
  - left. split; [right|]; reflexivity.
  - right. split; [intros [E|E]; discriminate|]. eexists; split; [reflexivity|].
    simpl. rewrite length_map. tauto.
Qed.

(** The search for the number of rows ends at a divisor of [n]. *)
Lemma find_nrow_divides (n : nat) : forall r : nat, (1 <= r)%nat ->
  exists d, find_nrow n r = Ok d /\ (1 <= d)%nat /\ (n mod d = 0)%nat.
Proof.
  induction r as [|r IH]; intros Hr; [lia|]. cbn [find_nrow].
  destruct (n mod Datatypes.S r =? 0)%nat eqn:E.
  - apply Nat.eqb_eq in E. eauto.
  - destruct r as [|r]; [|apply IH; lia].
    rewrite Nat.mod_1_r in E. discriminate.
Qed.

(** The loop that creates the artists raises [ValueError] at an entry
    that is not a pair, and returns otherwise. *)
Lemma create_loop (mean std : list bool) (pct : list (option (list R)))
    (l : list (list string)) (a : Artists) :
  length mean = length l -> length std = length l -> length pct = length l ->
  lens (length l) a ->
  (Exists (fun k => length k <> 2%nat) l ->
   for_each (create_subplot mean std pct) (enumerate l) a = Raise ValueError) /\
  (Forall (fun k => ~ length k <> 2%nat) l ->
   exists a', for_each (create_subplot mean std pct) (enumerate l) a = Ok a' /\
              lens (length l) a').
Proof.
  intros Hm Hs Hp Ha.
  destruct (for_each_bad (create_subplot mean std pct) (lens (length l))
              (fun ik : nat * list string => length (snd ik) <> 2%nat)
              ValueError (enumerate l) a Ha) as [Hbad Hgood].
  - intros a0 [i k] Hin Ha0. apply enumerate_lookup in Hin. simpl.
    apply (create_subplot_cases mean std pct (length l) a0 i k); try assumption.
    exact (lookup_lt_Some _ _ _ Hin).
  - split.
    + intros Hex. apply Hbad. apply Exists_exists in Hex as (k & Hk & Hlen).
      apply list_elem_of_lookup in Hk as [i Hi].
      apply Exists_exists. exists (i, k). split; [|exact Hlen].
      apply enumerate_lookup. exact Hi.
    + intros Hall. apply Hgood. apply Forall_forall. intros [i k] Hin.
      apply enumerate_lookup in Hin. simpl.
      rewrite Forall_forall in Hall. apply Hall.
      apply list_elem_of_lookup. eauto.
Qed.

Lemma parse_entry_spec_coords (e k : KindEntry) :
  parse_entry_spec e = Ok k ->
  coords k = entry_coords e /\
  (forall s, e = KStr s -> length (entry_coords e) = 2%nat).
Proof.
  destruct e as [s|cs]; simpl.
  - destruct (length (expand (split "-" s)) =? 2)%nat eqn:E; [|discriminate].
    intros [= <-]. split; [reflexivity|]. intros _ _.
    apply Nat.eqb_eq. exact E.
  - intros [= <-]. split; [reflexivity | discriminate].
Qed.

(** The parser raises [ValueError] at a string entry that is not a pair,
    or returns the coordinates of every entry. *)
Lemma parse_kind_cases (kind : KindArg) :
  (parse_kind kind = Raise ValueError /\ kind_wrong kind) \/
  (exists ks, parse_kind kind = Ok ks /\
     map coords ks = map entry_coords (entries kind) /\
     forall s, KStr s ∈ entries kind ->
               length (entry_coords (KStr s)) = 2%nat).
Proof.
  rewrite ParserFacts.parse_kind_refines. unfold parse_kind_spec.
  destruct (ParserFacts.parse_entries_spec_cases (entries kind))
    as [(ks & -> & HF)|(-> & s & Hs & Hlen)].
  - right. exists ks. split; [reflexivity|].
    induction HF as [|e k es ks He HF IH]; simpl.
    + split; [reflexivity|]. intros s Hs. inversion Hs.
    + destruct IH as [IH1 IH2].
      destruct (parse_entry_spec_coords e k He) as [Hc Hl]. split.
      * rewrite Hc, IH1. reflexivity.
      * intros s Hs. apply elem_of_cons in Hs as [<-|Hs];
          [exact (Hl s eq_refl) | exact (IH2 s Hs)].
  - left. split; [reflexivity|]. exists (KStr s). split; assumption.
Qed.

(** The layout that is chosen for [n] subplots has [n] axes. *)
Lemma auto_layout (n : nat) :
  (forall r c, (0 < r)%Z -> (0 < c)%Z ->
     plt_subplots r c = Ok (Z.to_nat (r * c))) ->
  (1 <= n)%nat ->
  ('(ncol, nrow) ← (nrow ← find_nrow n (Nat.sqrt n);
                     Ok (Z.of_nat (n / nrow), Z.of_nat nrow));
   plt_subplots nrow ncol) = Ok n.
Proof.
  intros Hplt Hn.
  destruct (find_nrow_divides n (Nat.sqrt n)) as (d & -> & Hd & Hmod).
  { apply Nat.sqrt_le_square. simpl. lia. }
  simpl. apply Nat.Div0.div_exact in Hmod.
  assert (1 <= n / d)%nat by nia.
  rewrite Hplt by lia. f_equal. nia.
Qed.

(** The axes: none can be created for no subplot; otherwise there is
    at least one, and fewer than subplots only when too few are given. *)
Lemma create_axes_cases (n : nat) (args : Args) :
  ~ grid_wrong n (arg_grid args) -> arg_ax args <> AxSeq 0 ->
  figure_ok args ->
  (n = 0%nat /\ create_axes n (arg_ax args) (arg_grid args)
               = Raise ZeroDivisionError) \/
  (exists k, create_axes n (arg_ax args) (arg_grid args) = Ok k /\
             (1 <= k)%nat /\ ((k < n)%nat <-> axes_few n (arg_ax args))).
Proof.
  intros Hg Hax Hfig. unfold figure_ok in Hfig. unfold create_axes.
  destruct (arg_ax args) as [| |k] eqn:Eax.
  - destruct (Hfig eq_refl) as [Hplt Hpos].
    destruct (arg_grid args) as [[|g gs]|] eqn:Eg.
    + (* an empty grid: the layout is chosen *)
      destruct n as [|n]; [left; split; reflexivity|]. right.
      exists (Datatypes.S n). rewrite (auto_layout _ Hplt) by lia.
      simpl. split; [reflexivity|]. split; lia.
    + right. assert (exists g1, gs = [g1] /\ (Z.of_nat n <= g * g1)%Z)
        as (g1 & -> & Hle).
      { destruct (classic_pair g gs n) as [Hp|Hp]; [exact Hp|].
        exfalso. apply Hg. exists (g :: gs). split; [reflexivity|].
        split; [discriminate|]. intros (a & b & [= -> ->] & Hle).
        apply Hp. eauto. }
      destruct (Hpos g g1 eq_refl) as [Hg0 Hg1]. simpl.
      rewrite Hplt by assumption.
      eexists; split; [reflexivity|]. simpl. split; [nia|]. split; [nia|tauto].
    + destruct n as [|n]; [left; split; reflexivity|]. right.
      exists (Datatypes.S n). rewrite (auto_layout _ Hplt) by lia.
      simpl. split; [reflexivity|]. split; lia.
  - right. exists 1%nat. simpl. split; [reflexivity|]. split; [lia|tauto].
  - right. exists k. simpl. split; [reflexivity|]. split; [|tauto].
    destruct k; [contradiction | lia].
Qed.

Lemma create_subplot_frame (mean std : list bool)
    (pct : list (option (list R))) (a : Artists) (j : nat) k a' (i : nat) :
  create_subplot mean std pct a (j, k) = Ok a' -> i <> j ->
  created a' i = created a i.
Proof.
  unfold create_subplot. intros Hb Hij. do 5 inv_bind Hb.
  injection Hb as <-. unfold created; simpl.
  rewrite list_lookup_insert_ne by congruence.
  destruct a2, a3, a4 as [[|q qs]|];
    rewrite ?list_lookup_insert_ne by congruence; reflexivity.
Qed.

Lemma create_subplot_own (mean std : list bool)
    (pct : list (option (list R))) (a : Artists) (i : nat) k a' :
  create_subplot mean std pct a (i, k) = Ok a' ->
  created a i = (Some None, Some None, Some None, Some []) ->
  exists (m s : bool) (p : option (list R)),
    mean !! i = Some m /\ std !! i = Some s /\ pct !! i = Some p /\
    created a' i =
      (Some (Some {| visible := true; offsets := [] |}),
       Some (if m then Some {| mean_data := None |} else None),
       Some (if s then Some new_ellipse else None),
       Some (new_percentile_ellipses p)).
Proof.
  unfold create_subplot, created. intros Hb Ha.
  injection Ha as Hsc Hm Hs Hp. do 5 inv_bind Hb. injection Hb as <-.
  apply getitem_Ok in E1, E2, E3. rename a2 into m, a3 into s, a4 into p.
  exists m, s, p. repeat (split; [assumption|]). simpl.
  rewrite list_lookup_insert_eq by (eapply lookup_lt_Some; eassumption).
  destruct m, s, p as [[|q qs]|];
    rewrite ?list_lookup_insert_eq by (eapply lookup_lt_Some; eassumption);
    rewrite ?Hm, ?Hs, ?Hp; reflexivity.
Qed.

Lemma created_initial (n i : nat) :
  (i < n)%nat ->
  created (R := R)
    {| artists_scatter := replicate n None; artists_hexbin := replicate n [];
       artists_mean := replicate n None; artists_std := replicate n None;
       artists_percentiles := replicate n [] |} i
  = (Some None, Some None, Some None, Some []).
Proof.
  intros Hi. unfold created; simpl.
  rewrite !lookup_replicate_2 by exact Hi. reflexivity.
Qed.

(** What the constructor returns: one pair and one set of artists for
    each subplot, the indicators as the arguments ask for them. *)
Lemma init_plot_created (args : Args) (p : PhaseSpacePlot) :
  init_plot args = Ok p ->
  let n := length (kind (config p)) in
  n_subplots (config p) = n /\
  Forall (fun k => length k = 2%nat) (kind (config p)) /\
  lens n (arts p) /\
  plot (config p) = arg_plot args /\ ~ plot_wrong (plot (config p)) /\
  forall i, (i < n)%nat ->
    exists (m s : bool) (pi : option (list R)),
      sanitize_flag n (arg_mean args) !! i = Some m /\
      sanitize_flag n (arg_std args) !! i = Some s /\
      percentiles (config p) !! i = Some pi /\
      created (arts p) i =
        (Some (Some {| visible := true; offsets := [] |}),
         Some (if m then Some {| mean_data := None |} else None),
         Some (if s then Some new_ellipse else None),
         Some (new_percentile_ellipses pi)).
Proof.
  unfold init_plot. intros Hi.
  inv_bind Hi. rename a into ks. inv_bind Hi. rename a into pct.
  inv_bind Hi. inv_bind Hi. rename a0 into naxes.
  inv_bind Hi. destruct (naxes =? 0)%nat; [discriminate|]. clear E3.
  inv_bind Hi. destruct (naxes <? length (map coords ks))%nat eqn:Elt;
    [discriminate|]. clear E3. apply Nat.ltb_ge in Elt.
  inv_bind Hi. rename a2 into a'. injection Hi as <-. simpl.
  set (kd := map coords ks) in *. set (n := length kd) in *.
  rewrite take_ge in E3 by exact Elt.
  destruct (check_args_cases n (sanitize_flag n (arg_mean args))
              (sanitize_flag n (arg_std args)) pct (arg_grid args)
              (arg_plot args)) as [[Hc _]|(_ & Hm & Hs & Hp & _ & Hpw)];
    [congruence|].
  assert (lens (R := R) n
               {| artists_scatter := replicate n None;
                    artists_hexbin := replicate n [];
                    artists_mean := replicate n None;
                    artists_std := replicate n None;
                    artists_percentiles := replicate n [] |}) as Hl0.
  { unfold lens; simpl. rewrite !length_replicate. repeat split; lia. }
  destruct (create_loop _ _ _ kd _ Hm Hs Hp Hl0) as [Hbad Hgood].
  assert (Forall (fun k : list string => ~ length k <> 2%nat) kd) as Hall.
  { apply Forall_forall. intros k Hk Hne.
    rewrite Hbad in E3; [discriminate|].
    apply Exists_exists. exists k. split; assumption. }
  destruct (Hgood Hall) as (a'' & Ha'' & Hlens).
  rewrite E3 in Ha''. injection Ha'' as <-.
  split. { unfold n_subplots; simpl. rewrite take_ge by exact Elt. reflexivity. }
  split. { eapply Forall_impl; [exact Hall|]. simpl. intros k Hk. lia. }
  split; [exact Hlens|]. split; [reflexivity|]. split; [exact Hpw|].
  intros i Hi.
  destruct (lookup_lt_is_Some_2 kd i Hi) as [k Hk].
  destruct (for_each_enumerate (create_subplot _ _ pct) created
              (create_subplot_frame _ _ pct) kd _ a' E3) as [_ Hin].
  destruct (Hin i k Hk) as (b1 & b2 & H1 & H2 & H3).
  rewrite (created_initial n i Hi) in H1.
  destruct (create_subplot_own _ _ _ _ _ _ _ H2 H1)
    as (m & s & pi & Hmi & Hsi & Hpi & Hc).
  exists m, s, pi. repeat (split; [assumption|]). rewrite H3. exact Hc.
Qed.

(** Every plot that the constructor returns is well formed. *)
Lemma init_plot_wf (args : Args) (p : PhaseSpacePlot) :
  init_plot args = Ok p -> wf_plot p.
Proof.
  intros Hi. destruct (init_plot_created args p Hi)
    as (Hn & Hall & Hlens & _ & _ & Hc).
  intros i Hlt. rewrite Hn in Hlt.
  destruct (Hc i Hlt) as (m & s & pi & _ & _ & Hpi & Hcr).
  destruct (lookup_lt_is_Some_2 (kind (config p)) i Hlt) as [k Hk].
  destruct Hlens as (_ & Lh & _).
  destruct (lookup_lt_is_Some_2 (artists_hexbin (arts p)) i) as [hx Hhx]; [lia|].
  unfold created in Hcr. injection Hcr as Hsc Hm Hs Hp.
  exists k. do 5 eexists. split; [exact Hk|]. split.
  { rewrite Forall_forall in Hall. apply Hall. apply list_elem_of_lookup. eauto. }
  split. { unfold view. rewrite Hsc, Hhx, Hm, Hs, Hp. reflexivity. }
  intros Hne. destruct pi as [ps|]; [|contradiction].
  exists ps. split; [exact Hpi|]. simpl. rewrite length_map. lia.
Qed.

End Init.

End InitFacts.

(** * The claims about [xplt/line.py] *)

Module KnlClaims.
Import Line LineFacts Examples.

(** C1 (the code departs from the claim).  The claim: the value
    [el.knl[n]] is added at the grid points inside the interval [s0, s1) of
    the element, and an interval that crosses the end of the line wraps
    around to its start, contributing at the grid points
    [s >= s0 mod Smax] or [s < s1 mod Smax].

    On the line of length 10 that ends with a thin multipole of length 2,
    [iter_elements] yields the interval [9, 11), which crosses the end of
    the line; [11 mod 10] is 1, so the grid point 0 is inside the wrapped
    interval.  [KnlPlot.update] tests the start of the interval only, takes
    the branch without wrap-around, and adds nothing at the grid point 0.
    The same multipole at the start of the line, with the interval
    [-1, 1), is wrapped: it contributes at both ends of the grid. *)
Theorem knl_interval_across_end_not_wrapped :
  iter_elements multipole_at_end =
    [("d"%string, drift 10, 0, 10);
     ("m"%string, multipole [1] (Some 2), 18 # 2, 22 # 2)] /\
  (exists r, mod_ (22 # 2) 10 = Ok r /\ r == 1) /\
  compute_KNL [0%Z] three_points multipole_at_end = Ok [[0; 0; 1]] /\
  compute_KNL [0%Z] three_points multipole_at_start = Ok [[1; 0; 1]].
Proof.
  split; [reflexivity|]. split.
  - eexists. split; [reflexivity|]. vm_compute. reflexivity.
  - split; vm_compute; reflexivity.
Qed.






End KnlClaims.

(** * The claims about [xplot/phasespace.py] *)

Module PhaseSpaceClaims.
Import PhaseSpace PhaseSpaceFacts ParserFacts InitFacts Examples.

(** The plot of the two subplots is the constructor's, and is well
    formed together with the four particles. *)
Lemma two_plots_wf :
  init_plot two_subplots = Ok two_plots /\ wf_plot two_plots /\
  wf_input (config two_plots) four_particles None.
Proof.
  assert (init_plot two_subplots = Ok two_plots) as E by (vm_compute; reflexivity).
  split; [exact E|]. split; [exact (init_plot_wf _ _ E)|].
  intros i k Hi Hk. unfold n_subplots in Hi. simpl in Hi, Hk.
  destruct i as [|[|i]]; simpl in Hk; [| |simpl in Hi; lia];
    injection Hk as <-; do 4 eexists; (split; [reflexivity|]);
    (split; [reflexivity|]); (split; [reflexivity|]); reflexivity.
Qed.

Lemma masked_length {R : Type} (particles : gmap string (list R))
    (c : string) (ix : list Z) (xa : list R) :
  masked particles c (Some ix) = Ok xa -> length xa = length ix.
Proof.
  unfold masked. intros Hm. inv_bind Hm. clear E. revert Hm.
  assert (forall acc : list R,
            for_each (fun acc k => v ← index a k; Ok (acc ++ [v])) ix acc = Ok xa ->
            length xa = (length acc + length ix)%nat) as Hgen.
  { induction ix as [|k ix IH]; intros acc; simpl.
    - intros [= <-]. lia.
    - destruct (index a k) as [v|]; simpl; [|discriminate].
      intros Hr. rewrite (IH _ Hr), length_app. simpl. lia. }
  intros Hr. rewrite (Hgen [] Hr). reflexivity.
Qed.

Section Claims.

Context {R : Type} `{Backend R}.




End Claims.




(** C3.  For every input [kind], the parser splits a string at commas
    into subplot specifications, splits each subplot string at dashes into
    a coordinate pair, and replaces a single-token abbreviation by its pair
    (['x'] by [('x','px')], ['y'] by [('y','py')], ['z'] by
    [('zeta','delta')], ['X'] by [('X','Px')], ['Y'] by [('Y','Py')]); every
    parsed subplot entry that does not consist of exactly two coordinates
    causes a [ValueError].

    The loop that rewrites [kind] in place computes the parser of the
    description.  When it returns, every string entry has become the pair
    on the two sides of its dash, or the pair of its abbreviation, and the
    entries given as sequences are unchanged.  It raises [ValueError], and
    nothing else, exactly when the tokens of some string entry are not
    two. *)
Theorem parse_kind_correct (kind : KindArg) :
  parse_kind kind = parse_kind_spec kind /\
  (forall s, entries (KindStr s) = map KStr (split "," s) /\
             join "," (split "," s) = s) /\
  (abbreviations "x" = Some ["x"; "px"] /\
   abbreviations "y" = Some ["y"; "py"] /\
   abbreviations "z" = Some ["zeta"; "delta"] /\
   abbreviations "X" = Some ["X"; "Px"] /\
   abbreviations "Y" = Some ["Y"; "Py"])%string /\
  (forall ks, parse_kind kind = Ok ks ->
     length ks = length (entries kind) /\
     forall i e, entries kind !! i = Some e ->
       match e with
       | KStr s => exists a b, ks !! i = Some (KSeq [a; b]) /\
                     (s = (a ++ "-" ++ b)%string \/ abbreviations s = Some [a; b])
       | KSeq cs => ks !! i = Some (KSeq cs)
       end) /\
  (parse_kind kind = Raise ValueError <->
   exists s, KStr s ∈ entries kind /\ length (expand (split "-" s)) <> 2%nat) /\
  (is_ok (parse_kind kind) \/ parse_kind kind = Raise ValueError).
Proof.
  split; [apply parse_kind_refines|].
  split; [intros s; split; [reflexivity | apply join_split]|].
  split; [repeat split|].
  rewrite parse_kind_refines. unfold parse_kind_spec.
  destruct (parse_entries_spec_cases (entries kind))
    as [(ks & Hks & HF)|(Hr & s & Hs & Hlen)].
  - rewrite Hks. split; [|split].
    + intros ks' [= <-]. split; [symmetry; exact (Forall2_length _ _ _ HF)|].
      intros i e He.
      destruct (Forall2_lookup_l _ _ _ _ _ HF He) as (k & Hk & Hp).
      destruct e as [s|cs]; simpl in Hp.
      * destruct (length (expand (split "-" s)) =? 2)%nat eqn:El; [|discriminate].
        injection Hp as <-. apply Nat.eqb_eq in El.
        destruct (expand (split "-" s)) as [|a [|b [|c l]]] eqn:Ex;
          try discriminate.
        exists a, b. split; [exact Hk | exact (expand_pair _ _ _ Ex)].
      * injection Hp as <-. exact Hk.
    + split; [discriminate|]. intros (s & Hs & Hlen).
      rewrite (parse_entries_spec_bad _ _ Hs Hlen) in Hks. discriminate.
    + left. eexists; reflexivity.
  - rewrite Hr. split; [discriminate|]. split; [|right; reflexivity].
    split; [intros _; eauto | reflexivity].
Qed.

Lemma parse_kind_correct_witness :
  parse_kind (KindStr "x,x-y") = Ok [KSeq ["x"; "px"]; KSeq ["x"; "y"]]%string /\
  parse_kind (KindSeq [KStr "z"; KStr "x-y-z"]) = Raise ValueError.
Proof.
  split.
  - destruct (parse_kind_correct (KindStr "x,x-y")) as (-> & _).
    reflexivity.
  - destruct (parse_kind_correct (KindSeq [KStr "z"; KStr "x-y-z"]))
      as (_ & _ & _ & _ & [_ Hraise] & _).
    apply Hraise. exists "x-y-z"%string. split; [|discriminate].
    right. left.
Defined.

Section InitClaims.

Context {R : Type} `{Backend R}.

(** C8.  Passing an empty list as [percentiles] to
    [PhaseSpacePlot.__init__] fails with an [IndexError] in the
    sanitization step, where [percentiles[0]] is inspected whenever
    [percentiles] is not [None]: the step raises for every number of
    subplots, the constructor raises [IndexError] whenever the parsing of
    [kind] before it has returned, and it raises [ValueError] from that
    parsing otherwise.  The empty list is never accepted. *)
Theorem empty_percentiles_IndexError (args : Args)
    (particles : option (gmap string (list R))) (mask : option (list Z)) :
  percentiles_empty (arg_percentiles args) ->
  (forall n, sanitize_percentiles n (arg_percentiles args) = Raise IndexError) /\
  (is_ok (parse_kind (arg_kind args)) ->
   init args particles mask = Raise IndexError) /\
  (init args particles mask = Raise IndexError \/
   (init args particles mask = Raise ValueError /\
    parse_kind (arg_kind args) = Raise ValueError)) /\
  ~ is_ok (init args particles mask).
Proof.
  intros Hempty.
  assert (forall n, sanitize_percentiles n (arg_percentiles args)
                    = Raise IndexError) as Hsan.
  { intros n. destruct Hempty as [-> | ->]; reflexivity. }
  assert (forall ks, parse_kind (arg_kind args) = Ok ks ->
                     init args particles mask = Raise IndexError) as Hok.
  { intros ks Hks. unfold init, init_plot. rewrite Hks. simpl.
    rewrite Hsan. reflexivity. }
  assert (init args particles mask = Raise IndexError \/
          (init args particles mask = Raise ValueError /\
           parse_kind (arg_kind args) = Raise ValueError)) as Hcases.
  { destruct (parse_kind_cases (arg_kind args)) as [[Hr _]|(ks & Hks & _)].
    - right. split; [|exact Hr]. unfold init, init_plot. rewrite Hr. reflexivity.
    - left. exact (Hok ks Hks). }
  split; [exact Hsan|]. split; [intros [ks Hks]; exact (Hok ks Hks)|].
  split; [exact Hcases|].
  intros [p Hp]. destruct Hcases as [Hc|[Hc _]]; congruence.
Qed.


End InitClaims.

Lemma empty_percentiles_IndexError_witness :
  percentiles_empty (arg_percentiles two_subplots_bar_empty) /\
  init two_subplots_bar_empty (Some four_particles) None = Raise IndexError.
Proof.
  assert (percentiles_empty (arg_percentiles two_subplots_bar_empty)) as He
    by (left; reflexivity).
  split; [exact He|].
  destruct (empty_percentiles_IndexError two_subplots_bar_empty
              (Some four_particles) None He) as (_ & Hix & _).
  apply Hix. eexists. vm_compute. reflexivity.
Defined.


(** The check of the axes is reached after the first of them is read:
    on an empty list of axes the constructor raises [IndexError]. *)
Lemma no_axes_IndexError :
  axes_few 2 (arg_ax two_subplots_no_axes) /\
  init_plot two_subplots_no_axes = Raise IndexError.
Proof. split; [simpl; lia | vm_compute; reflexivity]. Qed.

Lemma Sym_figure_ok (args : Args) :
  (forall g0 g1, arg_grid args = Some [g0; g1] -> (0 < g0)%Z /\ (0 < g1)%Z) ->
  figure_ok args.
Proof.
  intros Hg _. split; [|exact Hg]. intros r c Hr Hc. simpl.
  apply Z.ltb_lt in Hr, Hc. rewrite Hr, Hc. reflexivity.
Qed.


End PhaseSpaceClaims.

(** * Determinism of the two [update] methods *)

Module Determinism.
Import PhaseSpace PhaseSpaceFacts Examples.



End Determinism.

(** * Further properties of [xplt/line.py] *)

Module KnlExtras.
Import Line LineFacts LinePoint Examples.

(** X1.  [iter_elements] yields one item for each element that has a
    name and both positions, in the order of the line, with the name and
    the element unchanged; the interval of an element that is not thin
    is the one the line reports. *)
Theorem iter_elements_items (l : Line) :
  length (iter_elements l) =
    Nat.min (Nat.min (length (element_names l)) (length (elements l)))
            (Nat.min (length (s_upstream l)) (length (s_downstream l))) /\
  forall i name el s0 s1,
    element_names l !! i = Some name -> elements l !! i = Some el ->
    s_upstream l !! i = Some s0 -> s_downstream l !! i = Some s1 ->
    exists t0 t1, iter_elements l !! i = Some (name, el, t0, t1) /\
                  (~ s0 == s1 -> t0 = s0 /\ t1 = s1).
Proof.
  unfold iter_elements, zip4. split.
  - rewrite length_map, length_zip_with, !length_zip. reflexivity.
  - intros i name el s0 s1 Hn He H0 H1.
    rewrite list_lookup_fmap, lookup_zip_with.
    assert (zip (element_names l) (elements l) !! i = Some (name, el)) as ->
      by (apply lookup_zip_Some; split; assumption).
    assert (zip (s_upstream l) (s_downstream l) !! i = Some (s0, s1)) as ->
      by (apply lookup_zip_Some; split; assumption).
    simpl. destruct (Qeq_bool s0 s1) eqn:E.
    + apply Qeq_bool_iff in E. destruct (el_length el) as [len|];
        eexists _, _; (split; [reflexivity|]); intros Hne; contradiction.
    + exists s0, s1. split; [reflexivity|]. intros _. split; reflexivity.
Qed.

Lemma iter_elements_items_witness :
  exists t0 t1,
    iter_elements multipole_at_end !! 0%nat = Some ("d"%string, drift 10, t0, t1) /\
    (~ 0 == 10 -> t0 = 0 /\ t1 = 10).
Proof.
  destruct (iter_elements_items multipole_at_end) as [_ H].
  exact (H 0%nat "d"%string (drift 10) 0 10 eq_refl eq_refl eq_refl eq_refl).
Defined.

(** The accumulation keeps the shape of the array. *)
Lemma update_order_length grid Smax el kv s0 s1 (KNL KNL' : Matrix) ix :
  update_order grid Smax el kv s0 s1 KNL ix = Ok KNL' ->
  length KNL' = length KNL.
Proof.
  destruct ix as [i n]. unfold update_order. intros Hb. inv_bind Hb.
  destruct (n <=? a)%Z; [|injection Hb as <-; reflexivity].
  do 2 inv_bind Hb. injection Hb as <-. apply length_alter.
Qed.

Lemma update_element_length grid orders Smax (KNL KNL' : Matrix) it :
  update_element grid orders Smax KNL it = Ok KNL' ->
  length KNL' = length KNL.
Proof.
  destruct it as [[[name el] s0] s1]. unfold update_element.
  destruct (el_knl el) as [kv|]; [|intros [= <-]; reflexivity].
  apply (for_each_preserves (fun K : Matrix => length K = length KNL));
    [|reflexivity].
  intros K0 x K1 H0 Hb. rewrite (update_order_length _ _ _ _ _ _ _ _ _ Hb). exact H0.
Qed.

(** The accumulation keeps the shape of the array of zeros it starts
    from. *)
Lemma compute_KNL_dims (orders : list Z) (grid : list Q) (line : Line)
    (KNL : Matrix) :
  compute_KNL orders grid line = Ok KNL ->
  length KNL = length orders /\
  Forall (fun row => length row = length grid) KNL.
Proof.
  unfold compute_KNL.
  apply (for_each_preserves
           (fun K : Matrix => length K = length orders /\ rows_ok grid K)).
  - intros K0 it K1 [Hlen Hrows] Hb. split.
    + rewrite (update_element_length _ _ _ _ _ _ Hb). exact Hlen.
    + exact (update_element_rows _ _ _ _ _ _ Hrows Hb).
  - split; [apply length_replicate | apply rows_ok_zeros].
Qed.

(** X2.  Whenever the accumulation returns, the KNL array has one row
    for each plotted order and one column for each grid point. *)
Theorem compute_KNL_shape (orders : list Z) (grid : list Q) (line : Line)
    (KNL : Matrix) :
  compute_KNL orders grid line = Ok KNL ->
  length KNL = length orders /\
  Forall (fun row => length row = length grid) KNL.
Proof.
  exact (compute_KNL_dims orders grid line KNL).
Qed.

Lemma compute_KNL_shape_witness :
  compute_KNL [0%Z] three_points multipole_at_start = Ok [[1; 0; 1]] /\
  length [[1; 0; 1]] = length [0%Z] /\
  Forall (fun row : list Q => length row = length three_points) [[1; 0; 1]].
Proof.
  assert (compute_KNL [0%Z] three_points multipole_at_start = Ok [[1; 0; 1]])
    as E by (vm_compute; reflexivity).
  split; [exact E|]. exact (compute_KNL_shape _ _ _ _ E).
Defined.

(** The mask is the test [selects] at every grid point. *)
Lemma mask_selects (grid : list Q) (Smax s0 s1 : Q) (m : list bool)
    (j : nat) (s : Q) :
  mask grid Smax s0 s1 = Ok m -> grid !! j = Some s ->
  exists b, selects Smax s0 s1 s = Ok b /\ m !! j = Some b.
Proof.
  unfold mask, selects. intros Hm Hs.
  destruct (Qle_bool 0 s0 && Qle_bool s0 Smax).
  - injection Hm as <-. eexists. split; [reflexivity|].
    rewrite list_lookup_fmap, Hs. reflexivity.
  - do 2 inv_bind Hm. injection Hm as <-. simpl. eexists. split; [reflexivity|].
    rewrite list_lookup_fmap, Hs. reflexivity.
Qed.

Lemma update_order_row_frame grid Smax el kv s0 s1 (KNL : Matrix) (j : nat)
    (n : Z) (KNL' : Matrix) (i : nat) :
  update_order grid Smax el kv s0 s1 KNL (j, n) = Ok KNL' -> i <> j ->
  KNL' !! i = KNL !! i.
Proof.
  unfold update_order. intros Hb Hne. inv_bind Hb.
  destruct (n <=? a)%Z; [|injection Hb as <-; reflexivity].
  do 2 inv_bind Hb. injection Hb as <-. apply list_lookup_alter_ne. congruence.
Qed.

(** One element changes the entry of order [n] at the grid point [s] as
    [point_step] says. *)
Lemma update_element_point grid orders Smax (KNL KNL' : Matrix) (it : Item)
    (i j : nat) (n : Z) (s acc : Q) (row : list Q) :
  update_element grid orders Smax KNL it = Ok KNL' ->
  orders !! i = Some n -> grid !! j = Some s ->
  KNL !! i = Some row -> row !! j = Some acc ->
  exists row', KNL' !! i = Some row' /\
               row' !! j = Some (point_step Smax n s acc it).
Proof.
  destruct it as [[[name el] s0] s1]. unfold update_element, point_step.
  intros Hb Hn Hs Hrow Hacc.
  destruct (el_knl el) as [kv|]; [|injection Hb as <-; eauto].
  destruct (for_each_enumerate (update_order grid Smax el kv s0 s1)
              (fun (K : Matrix) (k : nat) => K !! k)
              (update_order_row_frame grid Smax el kv s0 s1)
              orders KNL KNL' Hb) as [_ Hin].
  destruct (Hin i n Hn) as (Ka & Kb & H1 & H2 & H3). simpl in H1, H3.
  rewrite Hrow in H1. rewrite H3. clear H3 Hin Hb.
  destruct (el_order el) as [o|] eqn:Eo;
    [|unfold update_order in H2; rewrite Eo in H2; discriminate].
  destruct (n <=? o)%Z eqn:Ele.
  - apply Z.leb_le in Ele.
    destruct (update_order_entry _ _ _ _ _ _ _ _ _ _ _ Eo Ele H2)
      as (m & v & Hm & Hv & _ & Hent).
    destruct (mask_selects _ _ _ _ _ _ _ Hm Hs) as (b & Hsel & Hb).
    destruct (Hent row j acc b H1 Hacc Hb) as (row' & Hrow' & Hj).
    exists row'. split; [exact Hrow'|]. rewrite Hsel, Hv, Hj.
    destruct b; reflexivity.
  - unfold update_order in H2. rewrite Eo in H2. simpl in H2.
    rewrite Ele in H2. injection H2 as <-. eauto.
Qed.

(** One entry of the array, as a fold over the items of the line. *)
Lemma compute_KNL_entry (orders : list Z) (grid : list Q) (line : Line)
    (KNL : Matrix) (i j : nat) (n : Z) (s : Q) :
  compute_KNL orders grid line = Ok KNL ->
  orders !! i = Some n -> grid !! j = Some s ->
  exists row, KNL !! i = Some row /\
    row !! j = Some (knl_at (get_length line) n s (iter_elements line)).
Proof.
  unfold compute_KNL, knl_at. intros Hc Hn Hs.
  assert (forall items (K0 K : Matrix) (row0 : list Q) (acc : Q),
            for_each (update_element grid orders (get_length line)) items K0 = Ok K ->
            K0 !! i = Some row0 -> row0 !! j = Some acc ->
            exists row, K !! i = Some row /\
              row !! j = Some (fold_left (point_step (get_length line) n s) items acc))
    as Hgen.
  { induction items as [|it items IH]; intros K0 K row0 acc; simpl.
    - intros [= <-]. eauto.
    - intros Hb Hrow Hacc. inv_bind Hb.
      destruct (update_element_point _ _ _ _ _ _ _ _ _ _ _ _ E Hn Hs Hrow Hacc)
        as (row1 & Hrow1 & Hacc1).
      exact (IH _ _ _ _ Hb Hrow1 Hacc1). }
  apply (Hgen _ _ _ (replicate (length grid) 0) 0 Hc).
  - apply lookup_replicate_2. exact (lookup_lt_Some _ _ _ Hn).
  - apply lookup_replicate_2. exact (lookup_lt_Some _ _ _ Hs).
Qed.

(** X3.  The value of the KNL array for the plotted order [n] at the
    grid point [s] is the sum, in the order of the line, of [knl[n]] over
    the elements that have [knl], have [order >= n] and whose interval
    selects [s]; it depends on no other order and on no other grid
    point. *)
Theorem compute_KNL_pointwise (orders : list Z) (grid : list Q) (line : Line)
    (KNL : Matrix) (i j : nat) (n : Z) (s : Q) :
  compute_KNL orders grid line = Ok KNL ->
  orders !! i = Some n -> grid !! j = Some s ->
  exists row, KNL !! i = Some row /\
    row !! j = Some (knl_at (get_length line) n s (iter_elements line)).
Proof.
  exact (compute_KNL_entry orders grid line KNL i j n s).
Qed.

Lemma compute_KNL_pointwise_witness :
  compute_KNL [0%Z] three_points multipole_at_start = Ok [[1; 0; 1]] /\
  [0%Z] !! 0%nat = Some 0%Z /\ three_points !! 2%nat = Some 10 /\
  exists row, [[1; 0; 1]] !! 0%nat = Some row /\
    row !! 2%nat = Some (knl_at 10 0 10 (iter_elements multipole_at_start)).
Proof.
  assert (compute_KNL [0%Z] three_points multipole_at_start = Ok [[1; 0; 1]])
    as E by (vm_compute; reflexivity).
  split; [exact E|]. split; [reflexivity|]. split; [reflexivity|].
  exact (compute_KNL_pointwise _ _ _ _ 0 2 0%Z 10 E eq_refl eq_refl).
Defined.

(** X4.  What adds nothing: at order [n], the elements without [knl] and
    the elements whose [order] is below [n].  On a line where every
    element is one of these, the row of order [n] is zero at every grid
    point; so the KNL array of a line of drifts is zero. *)
Theorem compute_KNL_zero_row (orders : list Z) (grid : list Q) (line : Line)
    (KNL : Matrix) (i : nat) (n : Z) :
  compute_KNL orders grid line = Ok KNL ->
  orders !! i = Some n ->
  Forall (fun el => el_knl el = None \/
                    exists o, el_order el = Some o /\ (o < n)%Z)
         (elements line) ->
  KNL !! i = Some (replicate (length grid) 0).
Proof.
  intros Hc Hn Hall.
  destruct (compute_KNL_dims _ _ _ _ Hc) as [Hlen Hrows].
  destruct (lookup_lt_is_Some_2 KNL i) as [row Hrow].
  { rewrite Hlen. exact (lookup_lt_Some _ _ _ Hn). }
  rewrite Hrow. f_equal.
  assert (length row = length grid) as Hrl.
  { rewrite Forall_forall in Hrows. apply Hrows.
    apply list_elem_of_lookup. eauto. }
  apply list_eq. intros j.
  destruct (grid !! j) as [s|] eqn:Hs.
  - destruct (compute_KNL_entry _ _ _ _ i j n s Hc Hn Hs)
      as (row' & Hrow' & Hj).
    rewrite Hrow in Hrow'. injection Hrow' as <-. rewrite Hj.
    rewrite lookup_replicate_2 by exact (lookup_lt_Some _ _ _ Hs).
    f_equal. unfold knl_at.
    assert (forall items acc,
              Forall (fun it : Item =>
                        let el := snd (fst (fst it)) in
                        el_knl el = None \/
                        exists o, el_order el = Some o /\ (o < n)%Z) items ->
              fold_left (point_step (get_length line) n s) items acc = acc)
      as Hfold.
    { induction items as [|it items IH]; intros acc Hf; [reflexivity|].
      apply Forall_cons in Hf as [Hit Hf]. simpl. rewrite <- (IH acc Hf) at 2.
      f_equal. destruct it as [[[name el] s0] s1]. simpl in Hit.
      unfold point_step. destruct Hit as [->|(o & -> & Ho)]; [reflexivity|].
      destruct (el_knl el); [|reflexivity].
      assert ((n <=? o)%Z = false) as -> by (apply Z.leb_gt; exact Ho).
      reflexivity. }
    apply Hfold. apply Forall_forall. intros it Hit.
    rewrite Forall_forall in Hall. apply Hall.
    apply iter_elements_el. exact Hit.
  - rewrite (lookup_ge_None_2 row j), (lookup_ge_None_2 (replicate _ _) j);
      [reflexivity | |]; apply lookup_ge_None in Hs;
      rewrite ?length_replicate; lia.
Qed.

Lemma compute_KNL_zero_row_witness :
  compute_KNL [0%Z; 1%Z] three_points multipole_at_start = Ok knl_at_start /\
  [0%Z; 1%Z] !! 1%nat = Some 1%Z /\
  knl_at_start !! 1%nat = Some (replicate (length three_points) 0).
Proof.
  assert (compute_KNL [0%Z; 1%Z] three_points multipole_at_start
          = Ok knl_at_start) as E by (vm_compute; reflexivity).
  split; [exact E|]. split; [reflexivity|].
  apply (compute_KNL_zero_row _ _ _ _ 1 1%Z E eq_refl).
  apply Forall_cons. split.
  - right. exists 0%Z. split; [reflexivity | lia].
  - apply Forall_cons. split; [left; reflexivity | constructor].
Defined.

Lemma Qfloor_unique (x : Q) (z : Z) :
  inject_Z z <= x -> x < inject_Z (z + 1) -> Qfloor x = z.
Proof.
  intros Hle Hlt.
  pose proof (Qfloor_le x) as H1. pose proof (Qlt_floor x) as H2.
  assert (inject_Z (Qfloor x) < inject_Z (z + 1)) as H3
    by (eapply Qle_lt_trans; eassumption).
  assert (inject_Z z < inject_Z (Qfloor x + 1)) as H4
    by (eapply Qle_lt_trans; eassumption).
  rewrite <- Zlt_Qlt in H3, H4. lia.
Qed.

(** The remainder [a % b] for a positive [b]: between 0 and [b], and
    [a] less a multiple of [b]. *)
Lemma mod_positive (a b : Q) :
  0 < b ->
  exists r k, mod_ a b = Ok r /\ 0 <= r /\ r < b /\ r == a - b * inject_Z k.
Proof.
  intros Hb. unfold mod_.
  destruct (Qeq_bool b 0) eqn:E.
  { apply Qeq_bool_iff in E. rewrite E in Hb. discriminate Hb. }
  exists (a - b * inject_Z (Qfloor (a / b))), (Qfloor (a / b)).
  split; [reflexivity|].
  pose proof (Qfloor_le (a / b)) as H1. pose proof (Qlt_floor (a / b)) as H2.
  rewrite inject_Z_plus in H2.
  assert (a / b * b == a) as Hdiv.
  { field. intros H0. rewrite H0 in Hb. discriminate Hb. }
  apply (Qmult_le_compat_r _ _ b) in H1; [|apply Qlt_le_weak; exact Hb].
  apply (Qmult_lt_compat_r _ _ b) in H2; [|exact Hb].
  rewrite Hdiv in H1, H2. set (f := inject_Z (Qfloor (a / b))) in *.
  split; [lra|]. split; [|reflexivity]. unfold inject_Z at 1 in H2. lra.
Qed.

Lemma mod_small (a b : Q) (z : Z) :
  0 < b -> inject_Z z * b <= a -> a < inject_Z (z + 1) * b ->
  mod_ a b = Ok (a - b * inject_Z z).
Proof.
  intros Hb Hle Hlt. unfold mod_.
  destruct (Qeq_bool b 0) eqn:E.
  { apply Qeq_bool_iff in E. rewrite E in Hb. discriminate Hb. }
  rewrite (Qfloor_unique (a / b) z); [reflexivity | |].
  - apply Qle_shift_div_l; assumption.
  - apply Qlt_shift_div_r; assumption.
Qed.



Lemma plot_artists_again {A B C : Type} (g : A -> B -> C -> B)
    (ns : list A) : forall (arts : list B) (K : list C),
  (forall n a r, g n (g n a r) r = g n a r) ->
  let ch := zip_with (fun n '(a, r) => g n a r) ns (zip arts K) in
  zip_with (fun n '(a, r) => g n a r) ns
           (zip (ch ++ drop (length ch) arts) K) = ch.
Proof.
  induction ns as [|n ns IH]; intros arts K Hg; [reflexivity|].
  destruct arts as [|a arts]; [reflexivity|].
  destruct K as [|r K]; [reflexivity|].
  simpl. rewrite Hg. f_equal. apply IH. exact Hg.
Qed.

Lemma set_artist_again (p : KnlPlot) (n : Z) (art : Artist) (row : list Q) :
  set_artist p n (set_artist p n art row) row = set_artist p n art row.
Proof. unfold set_artist. destruct (filled p); reflexivity. Qed.

(** X6.  [KnlPlot.update] does not accumulate over calls: a second
    update with the same line returns the same KNL array and the same
    changed artists, and leaves the plot as the first update left it. *)
Theorem update_again (p p' : KnlPlot) (line : Line) (changed : list Artist)
    (KNL : Matrix) :
  update p line = Ok (p', changed, KNL) ->
  update p' line = Ok (p', changed, KNL).
Proof.
  unfold update. intros Hu. inv_bind Hu. injection Hu as <- <- <-.
  simpl. rewrite E. simpl.
  assert (plot_artists
            {| knl := knl p; S := S p; filled := filled p;
               artists := plot_artists p a
                          ++ drop (length (plot_artists p a)) (artists p);
               factor_s := factor_s p; factor_k := factor_k p |} a
          = plot_artists p a) as Hch.
  { unfold plot_artists at 1. simpl.
    change (fun (n : Z) '(art, row) =>
              set_artist {| knl := knl p; S := S p; filled := filled p;
                            artists := plot_artists p a
                              ++ drop (length (plot_artists p a)) (artists p);
                            factor_s := factor_s p; factor_k := factor_k p |}
                         n art row)
      with (fun (n : Z) '(art, row) => set_artist p n art row).
    unfold plot_artists.
    apply (plot_artists_again (set_artist p) (knl p) (artists p) a).
    apply set_artist_again. }
  rewrite Hch. rewrite drop_app_length. reflexivity.
Qed.

Lemma update_again_witness :
  exists p' changed,
    update knl_plot_filled multipole_at_start = Ok (p', changed, knl_at_start) /\
    update p' multipole_at_start = Ok (p', changed, knl_at_start).
Proof.
  destruct (update knl_plot_filled multipole_at_start)
    as [[[p' ch] K]|] eqn:E; [|vm_compute in E; discriminate E].
  assert (K = knl_at_start) as ->
    by (vm_compute in E; injection E as _ _ <-; reflexivity).
  exists p', ch. split; [reflexivity|]. exact (update_again _ _ _ _ _ E).
Defined.

(** X7.  What [KnlPlot.update] displays: for every plotted order that
    has an artist, the y data of the artist are the row of the KNL array
    for that order, times the factor of its unit; the x data are kept in a
    filled plot and are the grid times the factor of [s] otherwise.  The
    artists beyond the plotted orders are left as they are. *)
Theorem update_artists (p p' : KnlPlot) (line : Line) (changed : list Artist)
    (KNL : Matrix) :
  update p line = Ok (p', changed, KNL) ->
  knl p' = knl p /\ S p' = S p /\ filled p' = filled p /\
  length (artists p') = length (artists p) /\
  (forall i n art, knl p !! i = Some n -> artists p !! i = Some art ->
     exists row, KNL !! i = Some row /\
       changed !! i = artists p' !! i /\
       artists p' !! i =
         Some {| art_x := if filled p then art_x art
                          else map (Qmult (factor_s p)) (S p);
                 art_y := map (Qmult (factor_k p n)) row |}) /\
  (forall i, (length (knl p) <= i)%nat -> artists p' !! i = artists p !! i).
Proof.
  intros Hu. pose proof (update_KNL _ _ _ _ _ Hu) as HK.
  destruct (compute_KNL_dims _ _ _ _ HK) as [Hlen _].
  unfold update in Hu. rewrite HK in Hu. simpl in Hu.
  injection Hu as <- <-. simpl.
  assert (length (plot_artists p KNL) <= length (artists p))%nat as Hle.
  { unfold plot_artists. rewrite length_zip_with, length_zip. lia. }
  split; [reflexivity|]. split; [reflexivity|]. split; [reflexivity|].
  split; [rewrite length_app, length_drop; lia|]. split.
  - intros i n art Hn Hart.
    destruct (lookup_lt_is_Some_2 KNL i) as [row Hrow].
    { rewrite Hlen. exact (lookup_lt_Some _ _ _ Hn). }
    exists row. split; [exact Hrow|].
    assert (plot_artists p KNL !! i = Some (set_artist p n art row)) as Hch.
    { unfold plot_artists. rewrite lookup_zip_with, Hn. simpl.
      assert (zip (artists p) KNL !! i = Some (art, row)) as ->
        by (apply lookup_zip_Some; split; assumption).
      reflexivity. }
    rewrite (lookup_app_l_Some _ _ _ _ Hch). split; [exact Hch|].
    f_equal. unfold set_artist. destruct (filled p); reflexivity.
  - intros i Hi.
    assert (length (plot_artists p KNL) <= i)%nat as Hi'.
    { unfold plot_artists. rewrite length_zip_with, length_zip. lia. }
    rewrite lookup_app_r by exact Hi'. rewrite lookup_drop. f_equal. lia.
Qed.

Lemma update_artists_witness :
  exists p' changed,
    update knl_plot_filled multipole_at_start = Ok (p', changed, knl_at_start) /\
    artists p' !! 0%nat = Some {| art_x := three_points;
                                  art_y := map (Qmult 1) [1; 0; 1] |}.
Proof.
  destruct (update knl_plot_filled multipole_at_start)
    as [[[p' ch] K]|] eqn:E; [|vm_compute in E; discriminate E].
  assert (K = knl_at_start) as ->
    by (vm_compute in E; injection E as _ _ <-; reflexivity).
  exists p', ch. split; [reflexivity|].
  destruct (update_artists _ _ _ _ _ E) as (_ & _ & _ & _ & Hart & _).
  destruct (Hart 0%nat 0%Z {| art_x := three_points; art_y := [0; 0; 0] |}
              eq_refl eq_refl) as (row & Hrow & _ & Hp').
  injection Hrow as <-. exact Hp'.
Defined.

(** X8.  Edges of [KnlPlot.__init__].  On a line none of whose elements
    has an [order] attribute (a line of drifts), with [knl] left to the
    constructor, [max] of the empty list raises [ValueError].  A
    [line_length] of zero is taken as not given: without a line the
    constructor raises [AttributeError] on [line.get_length()]. *)
Theorem knl_init_edges (is_filled : bool) (resolution : nat) (fs : Q)
    (fk : Z -> Q) :
  (forall l line_length, orders_of l = [] ->
     init (Some l) KnlNone is_filled resolution line_length fs fk
     = Raise ValueError) /\
  (forall knl_arg len, knl_arg <> KnlNone -> len == 0 ->
     init None knl_arg is_filled resolution (Some len) fs fk
     = Raise AttributeError).
Proof.
  split.
  - intros l ll Ho. unfold init. rewrite Ho. reflexivity.
  - intros knl_arg len Hk Hlen. unfold init.
    apply Qeq_bool_iff in Hlen.
    destruct knl_arg as [|k|ns]; [contradiction| |]; simpl; rewrite Hlen;
      reflexivity.
Qed.

Lemma knl_init_edges_witness :
  init (Some {| element_names := ["d"]; elements := [drift 10];
                s_upstream := [0]; s_downstream := [10]; get_length := 10 |})
       KnlNone true 3 None 1 (fun _ => 1) = Raise ValueError /\
  init None (KnlInt 1) true 3 (Some 0) 1 (fun _ => 1) = Raise AttributeError.
Proof.
  destruct (knl_init_edges true 3 1 (fun _ => 1)) as [H1 H2]. split.
  - apply H1. reflexivity.
  - apply H2; [discriminate | reflexivity].
Defined.

End KnlExtras.

(** * Further properties of [xplot/phasespace.py] *)

Module PhaseSpaceExtras.
Import PhaseSpace PhaseSpaceFacts ParserFacts InitFacts PhaseSpaceSpec Examples.

Section Extras.

Context {R : Type} `{Backend R}.

(** X9.  What [PhaseSpacePlot.__init__] returns: one coordinate pair for
    each entry of [kind], the type of plot it was given, which is one of
    the three, an axes for each subplot, and for each subplot a scatter
    artist without points, a mean marker exactly when [mean] asks for it,
    a std ellipse exactly when [std] asks for it, and one ellipse for each
    requested percentile, all empty. *)
Theorem init_plot_result (args : Args) (p : PhaseSpacePlot) :
  init_plot args = Ok p ->
  let n := length (entries (arg_kind args)) in
  kind (config p) = map entry_coords (entries (arg_kind args)) /\
  Forall (fun k => length k = 2%nat) (kind (config p)) /\
  n_subplots (config p) = n /\ (n <= n_axes (config p))%nat /\
  plot (config p) = arg_plot args /\
  (plot (config p) = "auto" \/ plot (config p) = "scatter" \/
   plot (config p) = "hist2d")%string /\
  forall i, (i < n)%nat ->
    exists (m s : bool) (pi : option (list R)),
      sanitize_flag n (arg_mean args) !! i = Some m /\
      sanitize_flag n (arg_std args) !! i = Some s /\
      percentiles (config p) !! i = Some pi /\
      artists_scatter (arts p) !! i
        = Some (Some {| visible := true; offsets := [] |}) /\
      has_artist (artists_mean (arts p) !! i) = m /\
      has_artist (artists_std (arts p) !! i) = s /\
      artists_std (arts p) !! i = Some (if s then Some new_ellipse else None) /\
      artists_percentiles (arts p) !! i
        = Some (map (fun _ => new_ellipse) (default [] pi)).
Proof.
  intros Hi n.
  destruct (init_plot_created args p Hi) as (Hn & Hall & _ & Hplot & Hpw & Hc).
  assert (kind (config p) = map entry_coords (entries (arg_kind args))
          /\ (length (kind (config p)) <= n_axes (config p))%nat) as [Hkind Hax].
  { unfold init_plot in Hi. inv_bind Hi.
    destruct (parse_kind_cases (arg_kind args)) as [[Hr _]|(ks & Hks & Hmap & _)];
      [congruence|].
    rewrite Hks in E. injection E as <-. rewrite Hmap in Hi.
    do 4 inv_bind Hi.
    match type of Hi with
    | context [(?k <? ?m)%nat] => destruct (k <? m)%nat eqn:Elt
    end; [discriminate Hi|]. simpl in Hi.
    inv_bind Hi. injection Hi as <-. simpl. split; [reflexivity|].
    apply Nat.ltb_ge in Elt. exact Elt. }
  assert (length (kind (config p)) = n) as Hlen
    by (rewrite Hkind; apply length_map).
  rewrite Hlen in *.
  split; [exact Hkind|]. split; [exact Hall|]. split; [exact Hn|].
  split; [exact Hax|]. split; [exact Hplot|]. split.
  { destruct (String.eqb (plot (config p)) "auto") eqn:E1;
      [apply String.eqb_eq in E1; tauto|].
    destruct (String.eqb (plot (config p)) "scatter") eqn:E2;
      [apply String.eqb_eq in E2; tauto|].
    destruct (String.eqb (plot (config p)) "hist2d") eqn:E3;
      [apply String.eqb_eq in E3; tauto|].
    exfalso. apply Hpw. apply String.eqb_neq in E1, E2, E3. repeat split; assumption. }
  intros i Hlt. destruct (Hc i Hlt) as (m & s & pi & Hm & Hs & Hpi & Hcr).
  exists m, s, pi. unfold created in Hcr. injection Hcr as Hsc Ham Has Hap.
  rewrite Hsc, Ham, Has, Hap.
  repeat (split; [assumption || reflexivity|]).
  split; [destruct m; reflexivity|]. split; [destruct s; reflexivity|].
  split; [reflexivity|]. destruct pi; reflexivity.
Qed.

(** X10.  [update] keeps the configuration, and neither creates nor
    removes an indicator: a subplot has a mean marker, a std ellipse and a
    number of percentile ellipses after the update as before; the artists
    of the subplots that are not visited are untouched.  A well-formed
    plot stays well formed, so it can be updated again. *)
Theorem update_keeps_indicators (p p' : PhaseSpacePlot)
    (particles : gmap string (list R)) (mask : option (list Z)) :
  update p particles mask = Ok p' ->
  config p' = config p /\
  (wf_plot p -> wf_plot p') /\
  (forall i,
     has_artist (artists_mean (arts p') !! i)
       = has_artist (artists_mean (arts p) !! i) /\
     has_artist (artists_std (arts p') !! i)
       = has_artist (artists_std (arts p) !! i) /\
     length <$> artists_percentiles (arts p') !! i
       = length <$> artists_percentiles (arts p) !! i) /\
  (forall i, (n_subplots (config p) <= i)%nat ->
     view (arts p') i = view (arts p) i).
Proof.
  intros Hu.
  assert (config p' = config p) as Hcfg.
  { unfold update in Hu. inv_bind Hu. injection Hu as <-. reflexivity. }
  assert (forall i, (n_subplots (config p) <= i)%nat ->
                    view (arts p') i = view (arts p) i) as Hout.
  { unfold update in Hu. inv_bind Hu. injection Hu as <-. simpl.
    destruct (for_each_enumerate (update_subplot (config p) particles mask)
                view (update_subplot_frame (config p) particles mask)
                _ _ _ E) as [Hout _]. exact Hout. }
  split; [exact Hcfg|]. split; [|split; [|exact Hout]].
  - intros Hwf i Hi. rewrite Hcfg in Hi |- *.
    unfold update in Hu. inv_bind Hu. injection Hu as <-. simpl.
    revert i Hi. revert E.
    apply (for_each_preserves
             (fun a => forall i, (i < n_subplots (config p))%nat ->
                                 wf_at (config p) a i)); [|exact Hwf].
    intros a0 [j k] a1 Ha0 Hb i Hi.
    exact (update_subplot_wf _ _ _ _ _ _ _ _ Hb (Ha0 i Hi)).
  - intros i. destruct (le_lt_dec (n_subplots (config p)) i) as [Hge|Hlt].
    + pose proof (Hout i Hge) as Hv. unfold view in Hv.
      injection Hv as _ _ -> -> ->. repeat split.
    + assert (exists k, kind (config p) !! i = Some k) as [k Hk].
      { unfold n_subplots in Hlt. apply lookup_lt_is_Some_2 in Hlt as [k Hk].
        exists k. apply lookup_subplots in Hk as [_ Hk]. exact Hk. }
      destruct (update_view p p' particles mask i k Hu Hlt Hk)
        as (ca & cb & xa & yb & sc & hx & m & s & es & es' & _ & _ & _ & _
            & Hv & Hv' & Hes).
      unfold view in Hv, Hv'.
      injection Hv as _ _ -> -> ->. injection Hv' as _ _ -> -> ->.
      split; [destruct m; reflexivity|]. split; [destruct s; reflexivity|].
      simpl. f_equal. destruct es as [|e es]; [subst es'; reflexivity|].
      destruct Hes as (ps & _ & Hloop).
      destruct (update_percentiles_lookup _ _ _ _ Hloop) as [Hl _]. exact Hl.
Qed.


End Extras.

Lemma two_plots_input :
  init_plot two_subplots = Ok two_plots /\ wf_plot two_plots /\
  wf_input (config two_plots) four_particles None /\
  update two_plots four_particles None = Ok two_plots_after.
Proof.
  assert (init_plot two_subplots = Ok two_plots) as E by (vm_compute; reflexivity).
  split; [exact E|]. split; [exact (init_plot_wf _ _ E)|]. split.
  - intros i k Hi Hk. unfold n_subplots in Hi. simpl in Hi, Hk.
    destruct i as [|[|i]]; simpl in Hk; [| |simpl in Hi; lia];
      injection Hk as <-; do 4 eexists; (split; [reflexivity|]);
      (split; [reflexivity|]); (split; [reflexivity|]); reflexivity.
  - vm_compute. reflexivity.
Qed.

Lemma init_plot_result_witness :
  init_plot two_subplots = Ok two_plots /\
  kind (config two_plots) = [["x"; "px"]; ["y"; "py"]]%string /\
  n_subplots (config two_plots) = 2%nat.
Proof.
  destruct two_plots_input as (E & _).
  split; [exact E|].
  destruct (init_plot_result two_subplots two_plots E) as (Hk & _ & Hn & _).
  split; [rewrite Hk; reflexivity | exact Hn].
Defined.

Lemma update_keeps_indicators_witness :
  update two_plots four_particles None = Ok two_plots_after /\
  config two_plots_after = config two_plots /\
  wf_plot two_plots_after.
Proof.
  destruct two_plots_input as (_ & Hwf & _ & Hu).
  split; [exact Hu|].
  destruct (update_keeps_indicators _ _ _ _ Hu) as (Hcfg & Hwf' & _).
  split; [exact Hcfg | exact (Hwf' Hwf)].
Defined.


(** Indexing from the front or, with a negative index, from the end;
    [IndexError] outside. *)
Lemma index_cases {A} (l : list A) (k : Z) :
  let len := Z.of_nat (length l) in
  ((0 <= k < len)%Z /\ exists v, l !! Z.to_nat k = Some v /\ index l k = Ok v) \/
  ((- len <= k < 0)%Z /\
   exists v, l !! Z.to_nat (len + k) = Some v /\ index l k = Ok v) \/
  (~ (- len <= k < len)%Z /\ index l k = Raise IndexError).
Proof.
  intros len. unfold index. fold len.
  destruct (0 <=? k)%Z eqn:E0.
  - apply Z.leb_le in E0. destruct (k <? len)%Z eqn:E1.
    + apply Z.ltb_lt in E1. left. split; [lia|].
      destruct (lookup_lt_is_Some_2 l (Z.to_nat k)) as [v Hv]; [lia|].
      exists v. split; [exact Hv|].
      replace ((0 <=? k)%Z && true) with true
        by (symmetry; apply andb_true_iff; split; [apply Z.leb_le; lia | reflexivity]).
      rewrite Hv. reflexivity.
    + apply Z.ltb_ge in E1. right. right. split; [lia|].
      rewrite andb_false_r. reflexivity.
  - apply Z.leb_gt in E0. destruct (0 <=? len + k)%Z eqn:E1.
    + apply Z.leb_le in E1. right. left. split; [lia|].
      destruct (lookup_lt_is_Some_2 l (Z.to_nat (len + k))) as [v Hv]; [lia|].
      exists v. split; [exact Hv|].
      assert ((len + k <? len)%Z = true) as -> by (apply Z.ltb_lt; lia).
      simpl. rewrite Hv. reflexivity.
    + apply Z.leb_gt in E1. right. right. split; [lia|]. reflexivity.
Qed.

Section Masked.

Context {R : Type}.

Lemma masked_loop (p : list R) (ix : list Z) : forall acc : list R,
  (exists vs, for_each (fun acc k => v ← index p k; Ok (acc ++ [v])) ix acc
              = Ok (acc ++ vs) /\
              Forall2 (fun k v => index p k = Ok v) ix vs) \/
  (for_each (fun acc k => v ← index p k; Ok (acc ++ [v])) ix acc
   = Raise IndexError /\
   Exists (fun k => ~ (- Z.of_nat (length p) <= k < Z.of_nat (length p))%Z) ix).
Proof.
  induction ix as [|k ix IH]; intros acc; simpl.
  - left. exists []. rewrite app_nil_r. split; [reflexivity | constructor].
  - destruct (index_cases p k) as [[Hk (v & _ & Hv)]|[[Hk (v & _ & Hv)]|[Hk ->]]];
      simpl.
    + rewrite Hv. simpl.
      destruct (IH (acc ++ [v])) as [(vs & -> & HF)|[-> Hex]].
      * left. exists (v :: vs). rewrite <- app_assoc. split; [reflexivity|].
        constructor; assumption.
      * right. split; [reflexivity|]. right. exact Hex.
    + rewrite Hv. simpl.
      destruct (IH (acc ++ [v])) as [(vs & -> & HF)|[-> Hex]].
      * left. exists (v :: vs). rewrite <- app_assoc. split; [reflexivity|].
        constructor; assumption.
      * right. split; [reflexivity|]. right. exact Hex.
    + right. split; [reflexivity|]. left. exact Hk.
Qed.


End Masked.


Section Missing.

Context {R : Type} `{Backend R}.

Lemma update_subplot_missing (cfg : Config) (particles : gmap string (list R))
    (mask : option (list Z)) (a : Artists) (i : nat) (k : list string) :
  missing particles mask k ->
  update_subplot cfg particles mask a (i, k) = Raise KeyError.
Proof.
  intros (ca & cb & -> & Hm). unfold update_subplot. simpl.
  destruct Hm as [Hca|[[xa Hxa] Hcb]].
  - unfold masked. rewrite Hca. reflexivity.
  - rewrite Hxa. simpl. unfold masked at 1. rewrite Hcb. reflexivity.
Qed.

Lemma coords_ok_not_missing (particles : gmap string (list R))
    (mask : option (list Z)) (k : list string) :
  coords_ok particles mask k -> ~ missing particles mask k.
Proof.
  intros (ca & cb & xa & yb & -> & Hxa & Hyb & _) (ca' & cb' & [= <- <-] & Hm).
  unfold masked in Hxa, Hyb.
  destruct Hm as [Hca|[_ Hcb]];
    [rewrite Hca in Hxa | rewrite Hcb in Hyb]; discriminate.
Qed.


End Missing.


(** The pieces of a split are one more than the separators. *)
Lemma split_length (sep : ascii) (s : string) :
  length (split sep s) = Datatypes.S (count_char sep s).
Proof.
  induction s as [|c s IH]; [reflexivity|]. cbn [split count_char].
  destruct (Ascii.eqb c sep); simpl; [rewrite IH; reflexivity|].
  destruct (split sep s) as [|w ws]; [discriminate IH | exact IH].
Qed.

Lemma expand_length_2 (s : string) :
  length (expand (split "-" s)) = 2%nat <-> subplot_string_ok s.
Proof.
  unfold subplot_string_ok.
  pose proof (split_length "-" s) as Hl. pose proof (join_split "-" s) as Hj.
  destruct (split "-" s) as [|t [|u ws]] eqn:E; simpl in Hl.
  - discriminate Hl.
  - simpl in Hj. subst t. injection Hl as Hc. simpl.
    destruct (abbreviations s) as [tuple|] eqn:Ea.
    + assert (length tuple = 2%nat) as ->.
      { unfold abbreviations in Ea.
        repeat (destruct (String.eqb s _) in Ea;
                [injection Ea as <-; reflexivity|]).
        discriminate Ea. }
      split; [intros _; right; split; [lia | discriminate] | reflexivity].
    + simpl. split; [discriminate|]. intros [Hc1|[_ Hne]]; [lia | contradiction].
  - injection Hl as Hc. simpl. split.
    + intros [= Hws]. left. lia.
    + intros [Hc1|[Hc0 _]]; lia.
Qed.

(** X14.  Which strings the parser of [kind] takes.  A string [kind] has
    one subplot for each comma, plus one.  A subplot string is accepted
    exactly when it has one dash, or has no dash and is one of the five
    abbreviations; so the empty string, a name that is not an
    abbreviation, and a string with two dashes raise [ValueError], and a
    string with one dash is accepted also when a side of the dash is
    empty. *)
Theorem parse_kind_accepts (kind : KindArg) :
  (forall s, length (entries (KindStr s)) = Datatypes.S (count_char "," s)) /\
  (is_ok (parse_kind kind) <->
   forall s, KStr s ∈ entries kind -> subplot_string_ok s) /\
  (parse_kind kind = Raise ValueError <->
   exists s, KStr s ∈ entries kind /\ ~ subplot_string_ok s).
Proof.
  split; [intros s; simpl; rewrite length_map; apply split_length|].
  rewrite parse_kind_refines. unfold parse_kind_spec.
  destruct (parse_entries_spec_cases (entries kind))
    as [(ks & Hks & HF)|(Hr & s & Hs & Hlen)].
  - rewrite Hks. split; [split; [intros _|intros _; eexists; reflexivity]|].
    + intros s Hs. apply list_elem_of_lookup in Hs as [i Hi].
      destruct (Forall2_lookup_l _ _ _ _ _ HF Hi) as (k & _ & Hk).
      simpl in Hk. apply expand_length_2.
      destruct (length (expand (split "-" s)) =? 2)%nat eqn:E; [|discriminate].
      apply Nat.eqb_eq. exact E.
    + split; [discriminate|]. intros (s & Hs & Hno). exfalso. apply Hno.
      apply list_elem_of_lookup in Hs as [i Hi].
      destruct (Forall2_lookup_l _ _ _ _ _ HF Hi) as (k & _ & Hk).
      simpl in Hk. apply expand_length_2.
      destruct (length (expand (split "-" s)) =? 2)%nat eqn:E; [|discriminate].
      apply Nat.eqb_eq. exact E.
  - rewrite Hr. split.
    + split; [intros [x Hx]; discriminate Hx|].
      intros Hall. exfalso. apply Hlen. apply expand_length_2. auto.
    + split; [intros _|reflexivity]. exists s. split; [exact Hs|].
      rewrite <- expand_length_2. exact Hlen.
Qed.

Lemma parse_kind_accepts_witness :
  parse_kind (KindStr "x,-,y-") = Ok [KSeq ["x"; "px"]; KSeq [""; ""];
                                      KSeq ["y"; ""]]%string /\
  parse_kind (KindStr "") = Raise ValueError /\
  parse_kind (KindStr "x,zeta") = Raise ValueError.
Proof.
  split; [|split].
  - destruct (parse_kind_accepts (KindStr "x,-,y-")) as (_ & [_ Hok] & _).
    destruct Hok as [ks Hks].
    + intros s Hs. apply list_elem_of_In in Hs.
      destruct Hs as [[= <-]|[[= <-]|[[= <-]|[]]]];
        [right; split; [reflexivity | discriminate] | left; reflexivity
         | left; reflexivity].
    + rewrite Hks. vm_compute in Hks. injection Hks as <-. reflexivity.
  - destruct (parse_kind_accepts (KindStr "")) as (_ & _ & [_ Hr]).
    apply Hr. exists ""%string. split; [left|].
    intros [Hc|[_ Ha]]; [discriminate Hc | apply Ha; reflexivity].
  - destruct (parse_kind_accepts (KindStr "x,zeta")) as (_ & _ & [_ Hr]).
    apply Hr. exists "zeta"%string. split; [right; left|].
    intros [Hc|[_ Ha]]; [discriminate Hc | apply Ha; reflexivity].
Defined.

Lemma parse_entries_spec_sequences (css : list (list string)) :
  parse_entries_spec (map KSeq css) = Ok (map KSeq css).
Proof.
  induction css as [|cs css IH]; [reflexivity|]. simpl. rewrite IH. reflexivity.
Qed.

(** X15.  The parser does not look into the entries of [kind] that are
    given as sequences: they pass whatever their length.  What the parser
    returns has sequences only, so parsing it again returns it
    unchanged. *)
Theorem parse_kind_sequences (kind : KindArg) :
  (forall css, parse_kind (KindSeq (map KSeq css)) = Ok (map KSeq css)) /\
  (forall ks, parse_kind kind = Ok ks ->
     ks = map KSeq (map coords ks) /\ parse_kind (KindSeq ks) = Ok ks).
Proof.
  assert (forall css, parse_kind (KindSeq (map KSeq css)) = Ok (map KSeq css))
    as Hseq.
  { intros css. rewrite parse_kind_refines. apply parse_entries_spec_sequences. }
  split; [exact Hseq|]. intros ks Hks.
  assert (ks = map KSeq (map coords ks)) as Heq.
  { rewrite parse_kind_refines in Hks. unfold parse_kind_spec in Hks.
    destruct (parse_entries_spec_cases (entries kind))
      as [(ks' & Hks' & HF)|[Hr _]]; [|congruence].
    rewrite Hks' in Hks. injection Hks as <-. clear Hks'.
    induction HF as [|e k es ks' He HF IH]; [reflexivity|].
    simpl. rewrite <- IH. f_equal.
    destruct e as [s|cs]; simpl in He.
    - destruct (length (expand (split "-" s)) =? 2)%nat; [|discriminate].
      injection He as <-. reflexivity.
    - injection He as <-. reflexivity. }
  split; [exact Heq|]. rewrite Heq at 1 2. apply Hseq.
Qed.

Lemma parse_kind_sequences_witness :
  parse_kind (KindSeq [KSeq ["x"; "y"; "zeta"]]%string)
    = Ok [KSeq ["x"; "y"; "zeta"]]%string /\
  parse_kind (KindStr "x") = Ok [KSeq ["x"; "px"]]%string /\
  parse_kind (KindSeq [KSeq ["x"; "px"]]%string) = Ok [KSeq ["x"; "px"]]%string.
Proof.
  destruct (parse_kind_sequences (KindStr "x")) as [Hseq Hfix].
  assert (parse_kind (KindStr "x") = Ok [KSeq ["x"; "px"]]%string) as E
    by reflexivity.
  split; [exact (Hseq [["x"; "y"; "zeta"]]%string)|]. split; [exact E|].
  exact (proj2 (Hfix _ E)).
Defined.

Section Layout.

Context {R : Type} `{Backend R}.

Lemma find_nrow_spec (n : nat) : forall r d : nat,
  find_nrow n r = Ok d ->
  (1 <= d <= r)%nat /\ (n mod d = 0)%nat /\
  forall d', (d < d' <= r)%nat -> (n mod d' <> 0)%nat.
Proof.
  induction r as [|r IH]; intros d; [discriminate|]. cbn [find_nrow].
  destruct (n mod Datatypes.S r =? 0)%nat eqn:E.
  - intros [= <-]. apply Nat.eqb_eq in E. split; [lia|]. split; [exact E|].
    intros d' Hd'. lia.
  - intros Hd. destruct (IH d Hd) as (H1 & H2 & H3).
    split; [lia|]. split; [exact H2|]. intros d' Hd'.
    destruct (Nat.eq_dec d' (Datatypes.S r)) as [->|Hne].
    + apply Nat.eqb_neq. exact E.
    + apply H3. lia.
Qed.

(** The figure that is requested when neither axes nor a grid are
    given. *)
Lemma find_layout (n : nat) (grid : option (list Z)) :
  truthy grid = false ->
  (n = 0%nat -> create_axes n AxNone grid = Raise ZeroDivisionError) /\
  ((1 <= n)%nat ->
   exists nrow ncol,
     create_axes n AxNone grid = plt_subplots (Z.of_nat nrow) (Z.of_nat ncol) /\
     (1 <= nrow)%nat /\ (nrow * ncol = n)%nat /\ (nrow <= ncol)%nat /\
     forall d, (nrow < d)%nat -> (d * d <= n)%nat -> (n mod d <> 0)%nat).
Proof.
  intros Hg.
  assert (create_axes n AxNone grid =
            ('(ncol, nrow) ← (nrow ← find_nrow n (Nat.sqrt n);
                               Ok (Z.of_nat (n / nrow), Z.of_nat nrow));
             plt_subplots nrow ncol)) as Hca.
  { unfold create_axes. destruct grid as [[|g gs]|];
      [reflexivity | discriminate Hg | reflexivity]. }
  split.
  - intros Hn0. rewrite Hca, Hn0. reflexivity.
  - intros Hn. rewrite Hca.
    destruct (find_nrow_divides n (Nat.sqrt n)) as (d & Hd & _).
    { apply Nat.sqrt_le_square. simpl. lia. }
    destruct (find_nrow_spec n _ d Hd) as ([Hd1 Hdr] & Hmod & Hmax).
    rewrite Hd. simpl. exists d, (n / d)%nat. split; [reflexivity|].
    apply Nat.Div0.div_exact in Hmod.
    assert (d * d <= n)%nat as Hsq by (apply Nat.sqrt_le_square; exact Hdr).
    split; [exact Hd1|]. split; [lia|]. split; [nia|].
    intros d' Hlt Hsq'. apply Hmax. split; [exact Hlt|].
    apply Nat.sqrt_le_square. exact Hsq'.
Qed.

(** X16.  The layout that the constructor chooses for [n] subplots when
    neither axes nor a grid are given: the number of rows is the largest
    divisor of [n] whose square is at most [n], the number of columns is
    [n] divided by it, so the figure has exactly [n] axes and at least as
    many columns as rows.  For no subplot, the search divides by zero. *)
Theorem auto_layout_rows (n : nat) (grid : option (list Z)) :
  truthy grid = false ->
  (n = 0%nat -> create_axes n AxNone grid = Raise ZeroDivisionError) /\
  ((1 <= n)%nat ->
   exists nrow ncol,
     create_axes n AxNone grid = plt_subplots (Z.of_nat nrow) (Z.of_nat ncol) /\
     (1 <= nrow)%nat /\ (nrow * ncol = n)%nat /\ (nrow <= ncol)%nat /\
     forall d, (nrow < d)%nat -> (d * d <= n)%nat -> (n mod d <> 0)%nat).
Proof.
  exact (find_layout n grid).
Qed.

Lemma create_axes_enough (n : nat) (args : Args) :
  ~ grid_wrong n (arg_grid args) -> figure_ok args ->
  (axes_enough n (arg_ax args) (arg_grid args) /\
   exists k, create_axes n (arg_ax args) (arg_grid args) = Ok k /\
             (1 <= k)%nat /\ (n <= k)%nat) \/
  (~ axes_enough n (arg_ax args) (arg_grid args) /\
   (create_axes n (arg_ax args) (arg_grid args) = Raise ZeroDivisionError \/
    exists k, create_axes n (arg_ax args) (arg_grid args) = Ok k /\
              (k = 0 \/ k < n)%nat)).
Proof.
  intros Hg Hfig. unfold figure_ok in Hfig. unfold axes_enough.
  destruct (arg_ax args) as [| |k] eqn:Eax.
  - destruct (Hfig eq_refl) as [Hplt Hpos].
    destruct (truthy (arg_grid args)) eqn:Et.
    + left. split; [right; reflexivity|].
      destruct (arg_grid args) as [[|g gs]|] eqn:Eg; try discriminate Et.
      assert (exists g1, gs = [g1] /\ (Z.of_nat n <= g * g1)%Z)
        as (g1 & -> & Hle).
      { destruct (classic_pair g gs n) as [Hp|Hp]; [exact Hp|].
        exfalso. apply Hg. exists (g :: gs). split; [reflexivity|].
        split; [discriminate|]. intros (a & b & [= -> ->] & Hle).
        apply Hp. eauto. }
      destruct (Hpos g g1 eq_refl) as [Hg0 Hg1]. simpl.
      rewrite Hplt by assumption. eexists. split; [reflexivity|]. split; nia.
    + destruct (find_layout n (arg_grid args) Et) as [H0 H1].
      destruct n as [|n].
      * right. split; [intros [Hn|Ht]; [lia | discriminate Ht]|].
        left. apply H0. reflexivity.
      * left. split; [left; lia|].
        destruct (H1 ltac:(lia)) as (nrow & ncol & -> & Hr & Hrc & Hle & _).
        assert (1 <= ncol)%nat by nia.
        rewrite Hplt by lia. eexists. split; [reflexivity|]. split; nia.
  - simpl. destruct (le_lt_dec n 1) as [Hle|Hgt].
    + left. split; [exact Hle|]. exists 1%nat. split; [reflexivity|]. lia.
    + right. split; [lia|]. right. exists 1%nat. split; [reflexivity|]. lia.
  - simpl. destruct (le_lt_dec 1 k) as [H1|H0];
      [destruct (le_lt_dec n k) as [Hle|Hgt]|].
    + left. split; [lia|]. exists k. split; [reflexivity|]. lia.
    + right. split; [lia|]. right. exists k. split; [reflexivity|]. lia.
    + right. split; [lia|]. right. exists k. split; [reflexivity|]. lia.
Qed.


End Layout.

Lemma auto_layout_rows_witness :
  truthy (A := Z) None = false /\ (1 <= 12)%nat /\
  create_axes (R := Sym) 12 AxNone None = Ok 12%nat /\
  exists nrow ncol,
    create_axes (R := Sym) 12 AxNone None
      = plt_subplots (Z.of_nat nrow) (Z.of_nat ncol) /\
    nrow = 3%nat /\ ncol = 4%nat.
Proof.
  assert (truthy (A := Z) None = false) as Ht by reflexivity.
  assert (1 <= 12)%nat as Hn by lia.
  split; [exact Ht|]. split; [exact Hn|]. split; [reflexivity|].
  destruct (auto_layout_rows (R := Sym) 12 None Ht) as [_ Hl].
  destruct (Hl Hn) as (nrow & ncol & Hc & H1 & Hrc & Hle & Hmax).
  exists nrow, ncol. split; [exact Hc|].
  assert (nrow = 3)%nat as ->.
  { assert (nrow <= 3)%nat by nia.
    destruct (le_lt_dec 3 nrow) as [|Hlt]; [lia|].
    exfalso. apply (Hmax 3%nat); [lia | simpl; lia | reflexivity]. }
  split; [reflexivity | lia].
Defined.


End PhaseSpaceExtras.
